(** * Nexus compiler: lexer, parser primitives, semantic analyzer,
      AST-to-IR code generator and optimizer, embedded from the C++ sources.

    Conventions of the embedding.
    - [std::string] is [string]; [size_t] is [nat]; [int] is [Z], and the
      overflow of an [int] counter, undefined in C++, is left out.
    - A nullable [std::unique_ptr<T>] child that the parser may leave empty is
      an [option]; a child the parser always fills is a plain subterm.
    - Member functions take the object as an explicit state argument and
      return the new state next to their result.
    - [std::cerr] is the list of the lines written so far.
    - Dereferencing a null pointer is the outcome [None] of the code
      generator's monad; a [std::unique_ptr] that was moved from is null. *)

From Stdlib Require Import ZArith String Ascii List Lia DecimalString.
From stdpp Require Import base option list strings gmap.

Open Scope string_scope.

(** ** Characters and strings *)

(** [source[i]]: the character at index [i]; [std::string::operator[]] yields
    the terminating NUL at [i = size()]. *)
Definition char_at (s : string) (i : nat) : ascii :=
  match String.get i s with
  | Some c => c
  | None => Ascii.zero
  end.

Definition NUL : ascii := Ascii.zero.
Definition LF : ascii := "010"%char.
Definition TAB : ascii := "009"%char.
Definition CR : ascii := "013"%char.
Definition DQUOTE : ascii := "034"%char.

(** The one-character string of a line feed. *)
Definition endl : string := String LF EmptyString.

Definition char_between (lo hi c : ascii) : bool :=
  (N.leb (N_of_ascii lo) (N_of_ascii c)) && (N.leb (N_of_ascii c) (N_of_ascii hi)).

(** [isdigit] and [isalnum] of <cctype> in the "C" locale. *)
Definition isdigit (c : ascii) : bool := char_between "0" "9" c.
Definition isalpha (c : ascii) : bool :=
  char_between "a" "z" c || char_between "A" "Z" c.
Definition isalnum (c : ascii) : bool := isalpha c || isdigit c.

(** [std::vector::push_back]. *)
Definition push_back {A : Type} (l : list A) (x : A) : list A := app l [x].

(** [std::to_string] and [operator<<] on an [int]. *)
Definition int_to_string (z : Z) : string := NilZero.string_of_int (Z.to_int z).

(** Conversion of an out-of-range value to [int] (two's complement). *)
Definition to_int (z : Z) : Z := ((z + 2 ^ 31) mod 2 ^ 32 - 2 ^ 31)%Z.

Module frontend.

(** ** token.h *)

Inductive TokenType : Set :=
  (* keywords *)
  | LET | CONST | FN | ASYNC | AWAIT | COROUTINE | STRUCT | PROCESS | CLASS
  | INTERFACE | IF | ELSE | FOR | WHILE | RETURN | BREAK | CONTINUE | IMPORT
  | EXPORT | USE | NAMESPACE | CONSTRUCTOR | THIS | NEW | YIELD | TRY | CATCH
  | FINALLY | NULL_ | TRUE_ | FALSE_ | TYPEOF | INSTANCEOF | AS
  (* operators *)
  | PLUS | MINUS | MULTIPLY | DIVIDE | MODULO | PLUS_PLUS | MINUS_MINUS
  | ASSIGN | PLUS_ASSIGN | MINUS_ASSIGN | MULTIPLY_ASSIGN | DIVIDE_ASSIGN
  | MODULO_ASSIGN | EQUAL | NOT_EQUAL | LESS | LESS_EQUAL | GREATER
  | GREATER_EQUAL | AND | OR | NOT | BIT_AND | BIT_OR | BIT_XOR | BIT_NOT
  | LEFT_SHIFT | RIGHT_SHIFT | UNSIGNED_RIGHT_SHIFT | LEFT_SHIFT_ASSIGN
  | RIGHT_SHIFT_ASSIGN | UNSIGNED_RIGHT_SHIFT_ASSIGN | BIT_AND_ASSIGN
  | BIT_OR_ASSIGN | BIT_XOR_ASSIGN
  (* punctuation *)
  | SEMICOLON | COLON | COMMA | DOT | LEFT_PAREN | RIGHT_PAREN | LEFT_BRACE
  | RIGHT_BRACE | LEFT_BRACKET | RIGHT_BRACKET | ARROW | DOUBLE_COLON
  (* literals *)
  | IDENTIFIER | INTEGER | FLOAT | STRING | CHARACTER
  (* special tokens *)
  | END_OF_FILE | ERROR.

(** Position of a constructor in the enumeration; [==] on the enum compares
    these. *)
Definition TokenType_index (t : TokenType) : nat :=
  match t with
  | LET => 0 | CONST => 1 | FN => 2 | ASYNC => 3 | AWAIT => 4 | COROUTINE => 5
  | STRUCT => 6 | PROCESS => 7 | CLASS => 8 | INTERFACE => 9 | IF => 10
  | ELSE => 11 | FOR => 12 | WHILE => 13 | RETURN => 14 | BREAK => 15
  | CONTINUE => 16 | IMPORT => 17 | EXPORT => 18 | USE => 19 | NAMESPACE => 20
  | CONSTRUCTOR => 21 | THIS => 22 | NEW => 23 | YIELD => 24 | TRY => 25
  | CATCH => 26 | FINALLY => 27 | NULL_ => 28 | TRUE_ => 29 | FALSE_ => 30
  | TYPEOF => 31 | INSTANCEOF => 32 | AS => 33
  | PLUS => 34 | MINUS => 35 | MULTIPLY => 36 | DIVIDE => 37 | MODULO => 38
  | PLUS_PLUS => 39 | MINUS_MINUS => 40 | ASSIGN => 41 | PLUS_ASSIGN => 42
  | MINUS_ASSIGN => 43 | MULTIPLY_ASSIGN => 44 | DIVIDE_ASSIGN => 45
  | MODULO_ASSIGN => 46 | EQUAL => 47 | NOT_EQUAL => 48 | LESS => 49
  | LESS_EQUAL => 50 | GREATER => 51 | GREATER_EQUAL => 52 | AND => 53
  | OR => 54 | NOT => 55 | BIT_AND => 56 | BIT_OR => 57 | BIT_XOR => 58
  | BIT_NOT => 59 | LEFT_SHIFT => 60 | RIGHT_SHIFT => 61
  | UNSIGNED_RIGHT_SHIFT => 62 | LEFT_SHIFT_ASSIGN => 63
  | RIGHT_SHIFT_ASSIGN => 64 | UNSIGNED_RIGHT_SHIFT_ASSIGN => 65
  | BIT_AND_ASSIGN => 66 | BIT_OR_ASSIGN => 67 | BIT_XOR_ASSIGN => 68
  | SEMICOLON => 69 | COLON => 70 | COMMA => 71 | DOT => 72 | LEFT_PAREN => 73
  | RIGHT_PAREN => 74 | LEFT_BRACE => 75 | RIGHT_BRACE => 76
  | LEFT_BRACKET => 77 | RIGHT_BRACKET => 78 | ARROW => 79
  | DOUBLE_COLON => 80
  | IDENTIFIER => 81 | INTEGER => 82 | FLOAT => 83 | STRING => 84
  | CHARACTER => 85
  | END_OF_FILE => 86 | ERROR => 87
  end.

Definition TokenType_eqb (a b : TokenType) : bool :=
  Nat.eqb (TokenType_index a) (TokenType_index b).

Module Token.
Record t : Set := mk { type : TokenType; lexeme : string; line : Z; column : Z }.
End Token.

(** ** lexer.cpp *)

Module Lexer.

Record t : Set := mk {
  source : string;
  position : nat;
  line : Z;
  column : Z;
  ungotToken : option Token.t
}.

(** [Lexer::Lexer]. *)
Definition new (src : string) : t :=
  {| source := src; position := 0; line := 1%Z; column := 1%Z; ungotToken := None |}.

(** [Lexer::initKeywords]: the keys are pairwise distinct, so the first
    match of a lookup is the map's entry. *)
Definition keywords : list (string * TokenType) :=
  [ ("let", LET); ("const", CONST); ("fn", FN); ("async", ASYNC);
    ("await", AWAIT); ("coroutine", COROUTINE); ("struct", STRUCT);
    ("process", PROCESS); ("class", CLASS); ("interface", INTERFACE);
    ("if", IF); ("else", ELSE); ("for", FOR); ("while", WHILE);
    ("return", RETURN); ("break", BREAK); ("continue", CONTINUE);
    ("import", IMPORT); ("export", EXPORT); ("use", USE);
    ("namespace", NAMESPACE); ("constructor", CONSTRUCTOR); ("this", THIS);
    ("new", NEW); ("yield", YIELD); ("try", TRY); ("catch", CATCH);
    ("finally", FINALLY); ("null", NULL_); ("true", TRUE_);
    ("false", FALSE_); ("typeof", TYPEOF); ("instanceof", INSTANCEOF);
    ("as", AS) ].

Fixpoint keywords_find (k : string) (m : list (string * TokenType)) : option TokenType :=
  match m with
  | [] => None
  | (k', v) :: m' => if String.eqb k k' then Some v else keywords_find k m'
  end.

Definition set_pos (l : t) (p : nat) (ln col : Z) : t :=
  {| source := source l; position := p; line := ln; column := col;
     ungotToken := ungotToken l |}.

(** [Lexer::isAtEnd]. *)
Definition isAtEnd (l : t) : bool := Nat.leb (String.length (source l)) (position l).

(** Characters not yet consumed; bounds every scanning loop. *)
Definition remaining (l : t) : nat := String.length (source l) - position l.

(** [Lexer::peek]. *)
Definition peek (l : t) : ascii :=
  if isAtEnd l then NUL else char_at (source l) (position l).

(** [Lexer::advance]. *)
Definition advance (l : t) : ascii * t :=
  let c := char_at (source l) (position l) in
  let l1 := set_pos l (S (position l)) (line l) (column l + 1)%Z in
  if Ascii.eqb c LF
  then (c, set_pos l1 (position l1) (line l1 + 1)%Z 1%Z)
  else (c, l1).

(** [Lexer::match]. *)
Definition match_ (expected : ascii) (l : t) : bool * t :=
  if isAtEnd l || negb (Ascii.eqb (char_at (source l) (position l)) expected)
  then (false, l)
  else (true, set_pos l (S (position l)) (line l) (column l + 1)%Z).

(** [while (cond) advance();] where [cond] implies [!isAtEnd()]. *)
Fixpoint advance_while (fuel : nat) (cond : t -> bool) (l : t) : t :=
  match fuel with
  | 0 => l
  | S fuel' => if cond l then advance_while fuel' cond (snd (advance l)) else l
  end.

(** [Lexer::skipComment]. *)
Definition skipComment (l : t) : t :=
  advance_while (remaining l)
    (fun l => negb (isAtEnd l) && negb (Ascii.eqb (peek l) LF)) l.

(** The loop of the block-comment branch of [skipWhitespace]. *)
Fixpoint skipBlockBody (fuel : nat) (l : t) : t :=
  match fuel with
  | 0 => l
  | S fuel' =>
    if negb (isAtEnd l) &&
       negb (Ascii.eqb (peek l) "*" &&
             Ascii.eqb (char_at (source l) (position l + 1)) "/")
    then
      let l1 := if Ascii.eqb (peek l) LF
                then set_pos l (position l) (line l + 1)%Z 1%Z else l in
      skipBlockBody fuel' (snd (advance l1))
    else l
  end.

(** [Lexer::skipWhitespace].  In [case '/'] the source tests [peek()], the
    character just switched on, against ['/'] and then against ['*']. *)
Fixpoint skipWhitespace_loop (fuel : nat) (l : t) : t :=
  match fuel with
  | 0 => l
  | S fuel' =>
    if isAtEnd l then l else
    let c := peek l in
    if Ascii.eqb c " " || Ascii.eqb c TAB || Ascii.eqb c CR || Ascii.eqb c LF
    then skipWhitespace_loop fuel' (snd (advance l))
    else if Ascii.eqb c "/" then
      if Ascii.eqb (peek l) "/" then
        skipWhitespace_loop fuel' (skipComment l)
      else if Ascii.eqb (peek l) "*" then
        let l1 := snd (advance l) in
        let l2 := snd (advance l1) in
        let l3 := skipBlockBody (remaining l2) l2 in
        let l4 := if negb (isAtEnd l3)
                  then snd (advance (snd (advance l3))) else l3 in
        skipWhitespace_loop fuel' l4
      else l
    else l
  end.

Definition skipWhitespace (l : t) : t :=
  skipWhitespace_loop (S (remaining l)) l.

(** [Lexer::makeToken]: [column - lexeme.length()] is computed in [size_t]
    and converted back to [int]. *)
Definition makeToken (ty : TokenType) (lexeme : string) (l : t) : Token.t :=
  Token.mk ty lexeme (line l)
           (to_int (column l - Z.of_nat (String.length lexeme))).

(** [Lexer::errorToken]. *)
Definition errorToken (message : string) (l : t) : Token.t :=
  Token.mk ERROR message (line l) (column l).

(** [Lexer::identifier]. *)
Definition identifier (l : t) : Token.t * t :=
  let start := position l - 1 in
  let l1 := advance_while (remaining l)
              (fun l => negb (isAtEnd l) &&
                        (isalnum (peek l) || Ascii.eqb (peek l) "_")) l in
  let lexeme := String.substring start (position l1 - start) (source l1) in
  match keywords_find lexeme keywords with
  | Some ty => (makeToken ty lexeme l1, l1)
  | None => (makeToken IDENTIFIER lexeme l1, l1)
  end.

Definition digits (l : t) : t :=
  advance_while (remaining l) (fun l => negb (isAtEnd l) && isdigit (peek l)) l.

(** [Lexer::number]. *)
Definition number (l : t) : Token.t * t :=
  let start := position l - 1 in
  let l1 := digits l in
  let '(isFloat1, l2) :=
    if Ascii.eqb (peek l1) "." && isdigit (char_at (source l1) (position l1 + 1))
    then (true, digits (snd (advance l1)))
    else (false, l1) in
  let src := source l2 in
  let p := position l2 in
  let '(isFloat2, l3) :=
    if (Ascii.eqb (peek l2) "e" || Ascii.eqb (peek l2) "E") &&
       (isdigit (char_at src (p + 1)) ||
        ((Ascii.eqb (char_at src (p + 1)) "+" || Ascii.eqb (char_at src (p + 1)) "-")
         && isdigit (char_at src (p + 2))))
    then
      let l21 := snd (advance l2) in
      let l22 := if Ascii.eqb (peek l21) "+" || Ascii.eqb (peek l21) "-"
                 then snd (advance l21) else l21 in
      (true, digits l22)
    else (isFloat1, l2) in
  let lexeme := String.substring start (position l3 - start) (source l3) in
  if isFloat2 then (makeToken FLOAT lexeme l3, l3)
  else (makeToken INTEGER lexeme l3, l3).

(** The loop of [Lexer::string]; an iteration advances once or twice. *)
Fixpoint string_loop (fuel : nat) (l : t) : t :=
  match fuel with
  | 0 => l
  | S fuel' =>
    if negb (isAtEnd l) && negb (Ascii.eqb (peek l) DQUOTE)
    then
      let l1 := if Ascii.eqb (peek l) "\" then snd (advance l) else l in
      string_loop fuel' (snd (advance l1))
    else l
  end.

(** [Lexer::string]. *)
Definition string_ (l : t) : Token.t * t :=
  let start := position l in
  let l1 := string_loop (remaining l) l in
  if isAtEnd l1 then (errorToken "Unterminated string" l1, l1)
  else
    let l2 := snd (advance l1) in
    let lexeme := String.substring start (position l2 - start - 1) (source l2) in
    (makeToken STRING lexeme l2, l2).

(** [Lexer::character]. *)
Definition character (l : t) : Token.t * t :=
  let start := position l in
  let l1 := if Ascii.eqb (peek l) "\" then snd (advance l) else l in
  let l2 := snd (advance l1) in
  if isAtEnd l2 || negb (Ascii.eqb (peek l2) "'")
  then (errorToken "Unterminated character" l2, l2)
  else
    let l3 := snd (advance l2) in
    let lexeme := String.substring start (position l3 - start - 1) (source l3) in
    (makeToken CHARACTER lexeme l3, l3).

(** [if (match(c)) return makeToken(ty1, lex1); else ...]. *)
Definition on_match (c : ascii) (l : t) (yes : t -> Token.t * t)
    (no : t -> Token.t * t) : Token.t * t :=
  let '(b, l') := match_ c l in
  if b then yes l' else no l'.

Definition tok (ty : TokenType) (lexeme : string) (l : t) : Token.t * t :=
  (makeToken ty lexeme l, l).

(** [Lexer::scanToken]. *)
Definition scanToken (l0 : t) : Token.t * t :=
  let '(c, l) := advance l0 in
  if Ascii.eqb c "+" then
    on_match "+" l (tok PLUS_PLUS "++")
      (fun l => on_match "=" l (tok PLUS_ASSIGN "+=") (tok PLUS "+"))
  else if Ascii.eqb c "-" then
    on_match "-" l (tok MINUS_MINUS "--")
      (fun l => on_match "=" l (tok MINUS_ASSIGN "-=")
         (fun l => on_match ">" l (tok ARROW "->") (tok MINUS "-")))
  else if Ascii.eqb c "*" then
    on_match "=" l (tok MULTIPLY_ASSIGN "*=") (tok MULTIPLY "*")
  else if Ascii.eqb c "/" then
    on_match "=" l (tok DIVIDE_ASSIGN "/=") (tok DIVIDE "/")
  else if Ascii.eqb c "%" then
    on_match "=" l (tok MODULO_ASSIGN "%=") (tok MODULO "%")
  else if Ascii.eqb c "=" then
    on_match "=" l (tok EQUAL "==") (tok ASSIGN "=")
  else if Ascii.eqb c "!" then
    on_match "=" l (tok NOT_EQUAL "!=") (tok NOT "!")
  else if Ascii.eqb c "<" then
    on_match "<" l
      (fun l => on_match "=" l (tok LEFT_SHIFT_ASSIGN "<<=") (tok LEFT_SHIFT "<<"))
      (fun l => on_match "=" l (tok LESS_EQUAL "<=") (tok LESS "<"))
  else if Ascii.eqb c ">" then
    on_match ">" l
      (fun l => on_match ">" l
         (fun l => on_match "=" l (tok UNSIGNED_RIGHT_SHIFT_ASSIGN ">>>=")
                     (tok UNSIGNED_RIGHT_SHIFT ">>>"))
         (fun l => on_match "=" l (tok RIGHT_SHIFT_ASSIGN ">>=")
                     (tok RIGHT_SHIFT ">>")))
      (fun l => on_match "=" l (tok GREATER_EQUAL ">=") (tok GREATER ">"))
  else if Ascii.eqb c "&" then
    on_match "&" l (tok AND "&&")
      (fun l => on_match "=" l (tok BIT_AND_ASSIGN "&=") (tok BIT_AND "&"))
  else if Ascii.eqb c "|" then
    on_match "|" l (tok OR "||")
      (fun l => on_match "=" l (tok BIT_OR_ASSIGN "|=") (tok BIT_OR "|"))
  else if Ascii.eqb c "^" then
    on_match "=" l (tok BIT_XOR_ASSIGN "^=") (tok BIT_XOR "^")
  else if Ascii.eqb c "~" then tok BIT_NOT "~" l
  else if Ascii.eqb c ";" then tok SEMICOLON ";" l
  else if Ascii.eqb c ":" then
    on_match ":" l (tok DOUBLE_COLON "::") (tok COLON ":")
  else if Ascii.eqb c "," then tok COMMA "," l
  else if Ascii.eqb c "." then
    if isdigit (peek l) then number l else tok DOT "." l
  else if Ascii.eqb c "(" then tok LEFT_PAREN "(" l
  else if Ascii.eqb c ")" then tok RIGHT_PAREN ")" l
  else if Ascii.eqb c "{" then tok LEFT_BRACE "{" l
  else if Ascii.eqb c "}" then tok RIGHT_BRACE "}" l
  else if Ascii.eqb c "[" then tok LEFT_BRACKET "[" l
  else if Ascii.eqb c "]" then tok RIGHT_BRACKET "]" l
  else if Ascii.eqb c DQUOTE then string_ l
  else if Ascii.eqb c "'" then character l
  else if isdigit c then number l
  else if isalpha c || Ascii.eqb c "_" then identifier l
  else (errorToken "Unexpected character" l, l).

(** [Lexer::getNextToken]. *)
Definition getNextToken (l : t) : Token.t * t :=
  match ungotToken l with
  | Some token =>
    (token, {| source := source l; position := position l; line := line l;
               column := column l; ungotToken := None |})
  | None =>
    let l1 := skipWhitespace l in
    if isAtEnd l1 then (makeToken END_OF_FILE EmptyString l1, l1)
    else scanToken l1
  end.

(** [Lexer::ungetToken]: a token already held back is deleted. *)
Definition ungetToken (token : Token.t) (l : t) : t :=
  {| source := source l; position := position l; line := line l;
     column := column l; ungotToken := Some token |}.

(** The tokens of the next [n] calls of [getNextToken]. *)
Fixpoint tokens (n : nat) (l : t) : list Token.t :=
  match n with
  | 0 => []
  | S n' => let '(tk, l') := getNextToken l in tk :: tokens n' l'
  end.

(** [getNextToken] called until END_OF_FILE comes back. *)
Fixpoint tokenize (fuel : nat) (l : t) : list Token.t :=
  match fuel with
  | 0 => []
  | S fuel' =>
    let '(tk, l') := getNextToken l in
    if TokenType_eqb (Token.type tk) END_OF_FILE then [tk]
    else tk :: tokenize fuel' l'
  end.

End Lexer.


(** ** ast.h *)

#[local] Unset Elimination Schemes.

Inductive Expr : Set :=
  | BinaryExpr (left : Expr) (op : string) (right : Expr)
  | UnaryExpr (op : string) (right : Expr)
  | LiteralExpr (value : string) (type : string)
  | IdentifierExpr (name : string)
  | AssignExpr (name : string) (value : Expr)
  | CallExpr (callee : Expr) (arguments : list Expr)
  | MemberExpr (object : Expr) (name : string)
  | ThisExpr
  | SuperExpr (method : string)
  | GroupingExpr (expression : Expr)
  | ArrayExpr (elements : list Expr)
  | ObjectExpr (properties : list (string * Expr))
  | IndexExpr (object : Expr) (index : Expr)
  | LambdaExpr (parameters : list (string * string)) (body : Expr)
  | AwaitExpr (expression : Expr)
  | YieldExpr (expression : Expr).

Inductive Stmt : Set :=
  | ExpressionStmt (expression : Expr)
  | PrintStmt (expression : Expr)
  | VarStmt (name : string) (type : string) (initializer : option Expr)
  | ConstStmt (name : string) (type : string) (initializer : option Expr)
  | BlockStmt (statements : list Stmt)
  | IfStmt (condition : Expr) (thenBranch : Stmt) (elseBranch : option Stmt)
  | WhileStmt (condition : Expr) (body : Stmt)
  | ForStmt (initializer : option Stmt) (condition : option Expr)
            (increment : option Expr) (body : Stmt)
  | ReturnStmt (value : option Expr)
  | FunctionStmt (name : string) (parameters : list (string * string))
                 (returnType : string) (body : Stmt)
                 (isAsync : bool) (isCoroutine : bool)
  | ClassStmt (name : string) (superclass : string) (methods : list Stmt)
  | StructStmt (name : string) (fields : list (string * string))
  | TryStmt (body : Stmt) (catches : list Stmt) (finally : option Stmt)
  | CatchStmt (name : string) (type : string) (body : Stmt)
  | ThrowStmt (expression : Expr)
  | ProcessStmt (id : string) (body : Expr).

#[local] Set Elimination Schemes.

(** ** parser.cpp *)

Module Parser.

Record t : Set := mk {
  lexer : Lexer.t;
  currentToken : Token.t;
  previousToken : Token.t;
  hadError : bool;
  cerr : list string
}.

Definition set_lexer (lx : Lexer.t) (p : t) : t :=
  mk lx (currentToken p) (previousToken p) (hadError p) (cerr p).
Definition set_currentToken (tk : Token.t) (p : t) : t :=
  mk (lexer p) tk (previousToken p) (hadError p) (cerr p).
Definition set_previousToken (tk : Token.t) (p : t) : t :=
  mk (lexer p) (currentToken p) tk (hadError p) (cerr p).

(** The line [Parser::error] writes to [std::cerr]. *)
Definition diagnostic (tk : Token.t) (message : string) : string :=
  "Error at line " ++ int_to_string (Token.line tk) ++ ", column " ++
  int_to_string (Token.column tk) ++ ": " ++ message.

(** [Parser::error]. *)
Definition error (message : string) (p : t) : t :=
  mk (lexer p) (currentToken p) (previousToken p) true
     (push_back (cerr p) (diagnostic (currentToken p) message)).

(** The [while (true)] loop of [Parser::advance]: every ERROR token but
    a pushed-back one consumes input, so [remaining + 2] rounds reach the
    [break]. *)
Fixpoint advance_loop (fuel : nat) (p : t) : t :=
  match fuel with
  | 0 => p
  | S fuel' =>
    let '(tk, lx) := Lexer.getNextToken (lexer p) in
    let p1 := set_currentToken tk (set_lexer lx p) in
    if negb (TokenType_eqb (Token.type tk) ERROR) then p1
    else advance_loop fuel' (error (Token.lexeme tk) p1)
  end.

(** [Parser::advance]. *)
Definition advance (p : t) : t :=
  advance_loop (Lexer.remaining (lexer p) + 2)
               (set_previousToken (currentToken p) p).

(** [Parser::Parser]. *)
Definition new (src : string) : t :=
  advance (mk (Lexer.new src)
              (Token.mk END_OF_FILE EmptyString 0 0)
              (Token.mk END_OF_FILE EmptyString 0 0)
              false []).

(** [Parser::check]. *)
Definition check (type : TokenType) (p : t) : bool :=
  TokenType_eqb (Token.type (currentToken p)) type.

(** [Parser::match]. *)
Definition match_ (type : TokenType) (p : t) : bool * t :=
  if check type p then (true, advance p) else (false, p).

(** [Parser::consume]. *)
Definition consume (type : TokenType) (message : string) (p : t) : Token.t * t :=
  if check type p then
    let token := currentToken p in
    (token, advance p)
  else
    let p1 := error message p in
    (currentToken p1, p1).

(** [Parser::synchronize]. *)
Definition starts_statement (ty : TokenType) : bool :=
  match ty with
  | CLASS | STRUCT | FN | LET | CONST | IF | WHILE | FOR | TRY | RETURN
  | PROCESS => true
  | _ => false
  end.

Fixpoint synchronize_loop (fuel : nat) (p : t) : t :=
  match fuel with
  | 0 => p
  | S fuel' =>
    if negb (TokenType_eqb (Token.type (currentToken p)) END_OF_FILE) then
      if TokenType_eqb (Token.type (previousToken p)) SEMICOLON then p
      else if starts_statement (Token.type (currentToken p)) then p
      else synchronize_loop fuel' (advance p)
    else p
  end.

Definition synchronize (p : t) : t :=
  let p1 := advance p in
  synchronize_loop (S (S (Lexer.remaining (lexer p1)))) p1.

(** [Parser::parseType]. *)
Definition parseType (p : t) : string * t :=
  let '(m, p1) := match_ IDENTIFIER p in
  if m then (Token.lexeme (previousToken p1), p1) else (EmptyString, p1).

(** [if (match(COLON)) type = parseType();] *)
Definition optionalType (p : t) : string * t :=
  let '(m, p1) := match_ COLON p in
  if m then parseType p1 else (EmptyString, p1).

(** [match(a) || match(b) || ...]: the first alternative that matches
    advances; later ones are not tried. *)
Fixpoint match_any (types : list TokenType) (p : t) : bool * t :=
  match types with
  | [] => (false, p)
  | ty :: rest =>
    let '(m, p1) := match_ ty p in
    if m then (true, p1) else match_any rest p1
  end.

(** The recursive-descent functions.  The recursion of the source follows
    the input; here every call spends one unit of [fuel], and [None] means
    that the given fuel did not suffice. *)
Fixpoint expression (fuel : nat) (p : t) {struct fuel} : option (Expr * t) :=
  match fuel with
  | 0 => None
  | S f => assignment f p
  end

with assignment (fuel : nat) (p : t) {struct fuel} : option (Expr * t) :=
  match fuel with
  | 0 => None
  | S f =>
    '(expr, p1) ← orExpr f p;
    let '(m, p2) := match_ ASSIGN p1 in
    if m then
      '(value, p3) ← assignment f p2;
      match expr with
      | IdentifierExpr name => Some (AssignExpr name value, p3)
      | _ => Some (expr, error "Invalid assignment target." p3)
      end
    else Some (expr, p2)
  end

(** The binary levels: [expr = next(); while (match(ops...)) { op =
    previousToken; right = next(); expr = Binary(expr, op.lexeme, right); }] *)
with orExpr (fuel : nat) (p : t) {struct fuel} : option (Expr * t) :=
  match fuel with
  | 0 => None
  | S f => '(expr, p1) ← andExpr f p; orExpr_loop f expr p1
  end

with orExpr_loop (fuel : nat) (expr : Expr) (p : t) {struct fuel}
    : option (Expr * t) :=
  match fuel with
  | 0 => None
  | S f =>
    let '(m, p1) := match_any [OR] p in
    if m then
      let op := previousToken p1 in
      '(rhs, p2) ← andExpr f p1;
      orExpr_loop f (BinaryExpr expr (Token.lexeme op) rhs) p2
    else Some (expr, p1)
  end

with andExpr (fuel : nat) (p : t) {struct fuel} : option (Expr * t) :=
  match fuel with
  | 0 => None
  | S f => '(expr, p1) ← equality f p; andExpr_loop f expr p1
  end

with andExpr_loop (fuel : nat) (expr : Expr) (p : t) {struct fuel}
    : option (Expr * t) :=
  match fuel with
  | 0 => None
  | S f =>
    let '(m, p1) := match_any [AND] p in
    if m then
      let op := previousToken p1 in
      '(rhs, p2) ← equality f p1;
      andExpr_loop f (BinaryExpr expr (Token.lexeme op) rhs) p2
    else Some (expr, p1)
  end

with equality (fuel : nat) (p : t) {struct fuel} : option (Expr * t) :=
  match fuel with
  | 0 => None
  | S f => '(expr, p1) ← comparison f p; equality_loop f expr p1
  end

with equality_loop (fuel : nat) (expr : Expr) (p : t) {struct fuel}
    : option (Expr * t) :=
  match fuel with
  | 0 => None
  | S f =>
    let '(m, p1) := match_any [EQUAL; NOT_EQUAL] p in
    if m then
      let op := previousToken p1 in
      '(rhs, p2) ← comparison f p1;
      equality_loop f (BinaryExpr expr (Token.lexeme op) rhs) p2
    else Some (expr, p1)
  end

with comparison (fuel : nat) (p : t) {struct fuel} : option (Expr * t) :=
  match fuel with
  | 0 => None
  | S f => '(expr, p1) ← term f p; comparison_loop f expr p1
  end

with comparison_loop (fuel : nat) (expr : Expr) (p : t) {struct fuel}
    : option (Expr * t) :=
  match fuel with
  | 0 => None
  | S f =>
    let '(m, p1) := match_any [LESS; LESS_EQUAL; GREATER; GREATER_EQUAL] p in
    if m then
      let op := previousToken p1 in
      '(rhs, p2) ← term f p1;
      comparison_loop f (BinaryExpr expr (Token.lexeme op) rhs) p2
    else Some (expr, p1)
  end

with term (fuel : nat) (p : t) {struct fuel} : option (Expr * t) :=
  match fuel with
  | 0 => None
  | S f => '(expr, p1) ← factor f p; term_loop f expr p1
  end

with term_loop (fuel : nat) (expr : Expr) (p : t) {struct fuel}
    : option (Expr * t) :=
  match fuel with
  | 0 => None
  | S f =>
    let '(m, p1) := match_any [PLUS; MINUS] p in
    if m then
      let op := previousToken p1 in
      '(rhs, p2) ← factor f p1;
      term_loop f (BinaryExpr expr (Token.lexeme op) rhs) p2
    else Some (expr, p1)
  end

with factor (fuel : nat) (p : t) {struct fuel} : option (Expr * t) :=
  match fuel with
  | 0 => None
  | S f => '(expr, p1) ← unary f p; factor_loop f expr p1
  end

with factor_loop (fuel : nat) (expr : Expr) (p : t) {struct fuel}
    : option (Expr * t) :=
  match fuel with
  | 0 => None
  | S f =>
    let '(m, p1) := match_any [MULTIPLY; DIVIDE; MODULO] p in
    if m then
      let op := previousToken p1 in
      '(rhs, p2) ← unary f p1;
      factor_loop f (BinaryExpr expr (Token.lexeme op) rhs) p2
    else Some (expr, p1)
  end

with unary (fuel : nat) (p : t) {struct fuel} : option (Expr * t) :=
  match fuel with
  | 0 => None
  | S f =>
    let '(m, p1) := match_any [NOT; MINUS] p in
    if m then
      let op := previousToken p1 in
      '(rhs, p2) ← unary f p1;
      Some (UnaryExpr (Token.lexeme op) rhs, p2)
    else call f p1
  end

with member (fuel : nat) (p : t) {struct fuel} : option (Expr * t) :=
  match fuel with
  | 0 => None
  | S f => '(expr, p1) ← primary f p; member_loop f expr p1
  end

with member_loop (fuel : nat) (expr : Expr) (p : t) {struct fuel}
    : option (Expr * t) :=
  match fuel with
  | 0 => None
  | S f =>
    let '(m, p1) := match_ DOT p in
    if m then
      let '(name, p2) := consume IDENTIFIER "Expect property name after '.'." p1 in
      member_loop f (MemberExpr expr (Token.lexeme name)) p2
    else
      let '(m, p2) := match_ LEFT_BRACKET p1 in
      if m then
        '(index, p3) ← expression f p2;
        let '(_, p4) := consume RIGHT_BRACKET "Expect ']' after index expression." p3 in
        member_loop f (IndexExpr expr index) p4
      else Some (expr, p2)
  end

with primary (fuel : nat) (p : t) {struct fuel} : option (Expr * t) :=
  match fuel with
  | 0 => None
  | S f =>
    let '(m, p) := match_ FALSE_ p in
    if m then Some (LiteralExpr "false" "bool", p) else
    let '(m, p) := match_ TRUE_ p in
    if m then Some (LiteralExpr "true" "bool", p) else
    let '(m, p) := match_ NULL_ p in
    if m then Some (LiteralExpr "null" "null", p) else
    let '(m, p) := match_ INTEGER p in
    if m then Some (LiteralExpr (Token.lexeme (previousToken p)) "number", p) else
    let '(m, p) := match_ FLOAT p in
    if m then Some (LiteralExpr (Token.lexeme (previousToken p)) "number", p) else
    let '(m, p) := match_ STRING p in
    if m then Some (LiteralExpr (Token.lexeme (previousToken p)) "string", p) else
    let '(m, p) := match_ IDENTIFIER p in
    if m then Some (IdentifierExpr (Token.lexeme (previousToken p)), p) else
    let '(m, p) := match_ THIS p in
    if m then Some (ThisExpr, p) else
    let '(m, p) := match_ LEFT_PAREN p in
    if m then
      '(expr, p1) ← expression f p;
      let '(_, p2) := consume RIGHT_PAREN "Expect ')' after expression." p1 in
      Some (GroupingExpr expr, p2)
    else
      Some (LiteralExpr "null" "null", error "Expect expression." p)
  end

with call (fuel : nat) (p : t) {struct fuel} : option (Expr * t) :=
  match fuel with
  | 0 => None
  | S f => '(expr, p1) ← member f p; call_loop f expr p1
  end

with call_loop (fuel : nat) (expr : Expr) (p : t) {struct fuel}
    : option (Expr * t) :=
  match fuel with
  | 0 => None
  | S f =>
    let '(m, p1) := match_ LEFT_PAREN p in
    if m then
      '(arguments, p2) ←
        (if negb (check RIGHT_PAREN p1) then arguments_loop f [] p1
         else Some ([], p1));
      let '(_, p3) := consume RIGHT_PAREN "Expect ')' after arguments." p2 in
      call_loop f (CallExpr expr arguments) p3
    else Some (expr, p1)
  end

(** [do { arguments.push_back(expression()); } while (match(COMMA));] *)
with arguments_loop (fuel : nat) (arguments : list Expr) (p : t) {struct fuel}
    : option (list Expr * t) :=
  match fuel with
  | 0 => None
  | S f =>
    '(arg, p1) ← expression f p;
    let '(m, p2) := match_ COMMA p1 in
    if m then arguments_loop f (push_back arguments arg) p2
    else Some (push_back arguments arg, p2)
  end.

(** [consume] where the returned token is not used. *)
Definition expect (type : TokenType) (message : string) (p : t) : t :=
  snd (consume type message p).

(** [Parser::expressionStatement]. *)
Definition expressionStatement (fuel : nat) (p : t) : option (Stmt * t) :=
  '(expr, p1) ← expression fuel p;
  Some (ExpressionStmt expr, expect SEMICOLON "Expect ';' after expression." p1).

(** [Parser::returnStatement]. *)
Definition returnStatement (fuel : nat) (p : t) : option (Stmt * t) :=
  '(value, p1) ←
    (if negb (check SEMICOLON p)
     then '(e, p1) ← expression fuel p; Some (Some e, p1)
     else Some (None, p));
  Some (ReturnStmt value, expect SEMICOLON "Expect ';' after return value." p1).

(** [Parser::varStatement]. *)
Definition varStatement (fuel : nat) (p : t) : option (Stmt * t) :=
  let '(name, p1) := consume IDENTIFIER "Expect variable name." p in
  let '(type, p2) := optionalType p1 in
  let '(m, p3) := match_ ASSIGN p2 in
  '(initializer, p4) ←
    (if m then '(e, p4) ← expression fuel p3; Some (Some e, p4)
     else Some (None, p3));
  Some (VarStmt (Token.lexeme name) type initializer,
        expect SEMICOLON "Expect ';' after variable declaration." p4).

(** [Parser::constStatement]. *)
Definition constStatement (fuel : nat) (p : t) : option (Stmt * t) :=
  let '(name, p1) := consume IDENTIFIER "Expect constant name." p in
  let '(type, p2) := optionalType p1 in
  let p3 := expect ASSIGN "Expect '=' after constant name." p2 in
  '(initializer, p4) ← expression fuel p3;
  Some (ConstStmt (Token.lexeme name) type (Some initializer),
        expect SEMICOLON "Expect ';' after constant declaration." p4).

(** [Parser::throwStatement]. *)
Definition throwStatement (fuel : nat) (p : t) : option (Stmt * t) :=
  '(e, p1) ← expression fuel p;
  Some (ThrowStmt e, expect SEMICOLON "Expect ';' after throw expression." p1).

(** The [do ... while (match(COMMA))] loop of [Parser::parseParameters]. *)
Fixpoint parameters_loop (fuel : nat) (parameters : list (string * string))
    (p : t) : option (list (string * string) * t) :=
  match fuel with
  | 0 => None
  | S f =>
    let '(name, p1) := consume IDENTIFIER "Expect parameter name." p in
    let '(type, p2) := optionalType p1 in
    let parameters := push_back parameters (Token.lexeme name, type) in
    let '(m, p3) := match_ COMMA p2 in
    if m then parameters_loop f parameters p3 else Some (parameters, p3)
  end.

(** [Parser::parseParameters]. *)
Definition parseParameters (fuel : nat) (p : t)
    : option (list (string * string) * t) :=
  '(parameters, p1) ←
    (if negb (check RIGHT_PAREN p) then parameters_loop fuel [] p
     else Some ([], p));
  Some (parameters, expect RIGHT_PAREN "Expect ')' after parameters." p1).

(** The [do ... while (match(COMMA))] loop of [Parser::structStatement]. *)
Fixpoint fields_loop (fuel : nat) (fields : list (string * string)) (p : t)
    : option (list (string * string) * t) :=
  match fuel with
  | 0 => None
  | S f =>
    let '(fieldName, p1) := consume IDENTIFIER "Expect field name." p in
    let p2 := expect COLON "Expect ':' after field name." p1 in
    let '(fieldType, p3) := parseType p2 in
    let fields := push_back fields (Token.lexeme fieldName, fieldType) in
    let '(m, p4) := match_ COMMA p3 in
    if m then fields_loop f fields p4 else Some (fields, p4)
  end.

(** [Parser::structStatement]. *)
Definition structStatement (fuel : nat) (p : t) : option (Stmt * t) :=
  let '(name, p1) := consume IDENTIFIER "Expect struct name." p in
  let p2 := expect LEFT_BRACE "Expect '{' before struct body." p1 in
  '(fields, p3) ←
    (if negb (check RIGHT_BRACE p2) then fields_loop fuel [] p2
     else Some ([], p2));
  Some (StructStmt (Token.lexeme name) fields,
        expect RIGHT_BRACE "Expect '}' after struct body." p3).

Fixpoint statement (fuel : nat) (p : t) {struct fuel} : option (Stmt * t) :=
  match fuel with
  | 0 => None
  | S f =>
    let '(m, p) := match_ LET p in
    if m then varStatement f p else
    let '(m, p) := match_ CONST p in
    if m then constStatement f p else
    let '(m, p) := match_ FN p in
    if m then functionStatement f p else
    let '(m, p) := match_ CLASS p in
    if m then classStatement f p else
    let '(m, p) := match_ STRUCT p in
    if m then structStatement f p else
    let '(m, p) := match_ IF p in
    if m then ifStatement f p else
    let '(m, p) := match_ WHILE p in
    if m then whileStatement f p else
    let '(m, p) := match_ FOR p in
    if m then forStatement f p else
    let '(m, p) := match_ RETURN p in
    if m then returnStatement f p else
    let '(m, p) := match_ TRY p in
    if m then tryStatement f p else
    let '(m, p) := match_ LEFT_BRACE p in
    if m then blockStatement f p else
    let '(m, p) := match_ PROCESS p in
    if m then processStatement f p else
    expressionStatement f p
  end

with blockStatement (fuel : nat) (p : t) {struct fuel} : option (Stmt * t) :=
  match fuel with
  | 0 => None
  | S f =>
    '(statements, p1) ← block_loop f [] p;
    Some (BlockStmt statements,
          expect RIGHT_BRACE "Expect '}' after block." p1)
  end

(** [while (!check(RIGHT_BRACE) && currentToken.type != END_OF_FILE)
    statements.push_back(statement());] *)
with block_loop (fuel : nat) (statements : list Stmt) (p : t) {struct fuel}
    : option (list Stmt * t) :=
  match fuel with
  | 0 => None
  | S f =>
    if negb (check RIGHT_BRACE p) &&
       negb (TokenType_eqb (Token.type (currentToken p)) END_OF_FILE)
    then
      '(s, p1) ← statement f p;
      block_loop f (push_back statements s) p1
    else Some (statements, p)
  end

with ifStatement (fuel : nat) (p : t) {struct fuel} : option (Stmt * t) :=
  match fuel with
  | 0 => None
  | S f =>
    let p1 := expect LEFT_PAREN "Expect '(' after 'if'." p in
    '(condition, p2) ← expression f p1;
    let p3 := expect RIGHT_PAREN "Expect ')' after if condition." p2 in
    '(thenBranch, p4) ← statement f p3;
    let '(m, p5) := match_ ELSE p4 in
    if m then
      '(elseBranch, p6) ← statement f p5;
      Some (IfStmt condition thenBranch (Some elseBranch), p6)
    else Some (IfStmt condition thenBranch None, p5)
  end

with whileStatement (fuel : nat) (p : t) {struct fuel} : option (Stmt * t) :=
  match fuel with
  | 0 => None
  | S f =>
    let p1 := expect LEFT_PAREN "Expect '(' after 'while'." p in
    '(condition, p2) ← expression f p1;
    let p3 := expect RIGHT_PAREN "Expect ')' after while condition." p2 in
    '(body, p4) ← statement f p3;
    Some (WhileStmt condition body, p4)
  end

with forStatement (fuel : nat) (p : t) {struct fuel} : option (Stmt * t) :=
  match fuel with
  | 0 => None
  | S f =>
    let p1 := expect LEFT_PAREN "Expect '(' after 'for'." p in
    let '(m, p2) := match_ SEMICOLON p1 in
    '(initializer, p3) ←
      (if negb m then
         let '(m, p2) := match_ LET p2 in
         if m then '(s, p3) ← varStatement f p2; Some (Some s, p3) else
         let '(m, p2) := match_ CONST p2 in
         if m then '(s, p3) ← constStatement f p2; Some (Some s, p3) else
         '(s, p3) ← expressionStatement f p2; Some (Some s, p3)
       else Some (None, p2));
    let '(m, p4) := match_ SEMICOLON p3 in
    '(condition, p5) ←
      (if negb m then
         '(e, p5) ← expression f p4;
         Some (Some e, expect SEMICOLON "Expect ';' after for condition." p5)
       else Some (None, p4));
    let '(m, p6) := match_ RIGHT_PAREN p5 in
    '(increment, p7) ←
      (if negb m then
         '(e, p7) ← expression f p6;
         Some (Some e, expect RIGHT_PAREN "Expect ')' after for increment." p7)
       else Some (None, p6));
    '(body, p8) ← statement f p7;
    Some (ForStmt initializer condition increment body, p8)
  end

with functionStatement (fuel : nat) (p : t) {struct fuel} : option (Stmt * t) :=
  match fuel with
  | 0 => None
  | S f =>
    let '(isAsync, p1) := match_ ASYNC p in
    let '(isCoroutine, p2) := match_ COROUTINE p1 in
    let '(name, p3) := consume IDENTIFIER "Expect function name." p2 in
    let p4 := expect LEFT_PAREN "Expect '(' after function name." p3 in
    '(parameters, p5) ← parseParameters f p4;
    let '(returnType, p6) := optionalType p5 in
    let p7 := expect LEFT_BRACE "Expect '{' before function body." p6 in
    '(body, p8) ← blockStatement f p7;
    Some (FunctionStmt (Token.lexeme name) parameters returnType body
                       isAsync isCoroutine, p8)
  end

with classStatement (fuel : nat) (p : t) {struct fuel} : option (Stmt * t) :=
  match fuel with
  | 0 => None
  | S f =>
    let '(name, p1) := consume IDENTIFIER "Expect class name." p in
    let '(m, p2) := match_ LESS p1 in
    let '(superclass, p3) :=
      if m then
        let '(superToken, p3) := consume IDENTIFIER "Expect superclass name." p2 in
        (Token.lexeme superToken, p3)
      else (EmptyString, p2) in
    let p4 := expect LEFT_BRACE "Expect '{' before class body." p3 in
    '(methods, p5) ← methods_loop f [] p4;
    Some (ClassStmt (Token.lexeme name) superclass methods,
          expect RIGHT_BRACE "Expect '}' after class body." p5)
  end

with methods_loop (fuel : nat) (methods : list Stmt) (p : t) {struct fuel}
    : option (list Stmt * t) :=
  match fuel with
  | 0 => None
  | S f =>
    if negb (check RIGHT_BRACE p) &&
       negb (TokenType_eqb (Token.type (currentToken p)) END_OF_FILE)
    then
      '(s, p1) ← functionStatement f p;
      methods_loop f (push_back methods s) p1
    else Some (methods, p)
  end

with tryStatement (fuel : nat) (p : t) {struct fuel} : option (Stmt * t) :=
  match fuel with
  | 0 => None
  | S f =>
    let p1 := expect LEFT_BRACE "Expect '{' before try body." p in
    '(body, p2) ← blockStatement f p1;
    '(catches, p3) ← catches_loop f [] p2;
    let '(m, p4) := match_ FINALLY p3 in
    if m then
      '(finallyStmt, p5) ← finallyStatement f p4;
      Some (TryStmt body catches (Some finallyStmt), p5)
    else Some (TryStmt body catches None, p4)
  end

with catches_loop (fuel : nat) (catches : list Stmt) (p : t) {struct fuel}
    : option (list Stmt * t) :=
  match fuel with
  | 0 => None
  | S f =>
    let '(m, p1) := match_ CATCH p in
    if m then
      '(s, p2) ← catchStatement f p1;
      catches_loop f (push_back catches s) p2
    else Some (catches, p1)
  end

with catchStatement (fuel : nat) (p : t) {struct fuel} : option (Stmt * t) :=
  match fuel with
  | 0 => None
  | S f =>
    let p1 := expect LEFT_PAREN "Expect '(' after 'catch'." p in
    let '(name, p2) := consume IDENTIFIER "Expect catch parameter name." p1 in
    let '(type, p3) := optionalType p2 in
    let p4 := expect RIGHT_PAREN "Expect ')' after catch parameter." p3 in
    let p5 := expect LEFT_BRACE "Expect '{' before catch body." p4 in
    '(body, p6) ← blockStatement f p5;
    Some (CatchStmt (Token.lexeme name) type body, p6)
  end

with finallyStatement (fuel : nat) (p : t) {struct fuel} : option (Stmt * t) :=
  match fuel with
  | 0 => None
  | S f =>
    blockStatement f (expect LEFT_BRACE "Expect '{' before finally body." p)
  end

with processStatement (fuel : nat) (p : t) {struct fuel} : option (Stmt * t) :=
  match fuel with
  | 0 => None
  | S f =>
    let p1 := expect DOT "Expect '.' after 'process'." p in
    let '(spawnToken, p2) :=
      consume IDENTIFIER "Expect 'spawn' after 'process.'." p1 in
    let p3 := if negb (String.eqb (Token.lexeme spawnToken) "spawn")
              then error "Expect 'spawn' after 'process.'." p2 else p2 in
    let p4 := expect LEFT_PAREN "Expect '(' after 'process.spawn'." p3 in
    let p5 := expect LEFT_PAREN "Expect '(' after 'process.spawn'." p4 in
    let p6 := expect RIGHT_PAREN "Expect ')' after lambda parameters." p5 in
    let p7 := expect ARROW "Expect '=>' after lambda parameters." p6 in
    let '(m, p8) := match_ LEFT_BRACE p7 in
    '(body, p9) ←
      (if m then
         '(_, p9) ← blockStatement f p8;
         Some (LiteralExpr "block" "block", p9)
       else expression f p8);
    let p10 := expect RIGHT_PAREN "Expect ')' after process.spawn body." p9 in
    let p11 := expect SEMICOLON "Expect ';' after process.spawn statement." p10 in
    Some (ProcessStmt "spawn" body, p11)
  end.

(** The [while (currentToken.type != END_OF_FILE)] loop of [Parser::parse]. *)
Fixpoint parse_loop (fuel : nat) (statements : list Stmt) (p : t)
    : option (list Stmt * t) :=
  match fuel with
  | 0 => None
  | S f =>
    if negb (TokenType_eqb (Token.type (currentToken p)) END_OF_FILE) then
      '(s, p1) ← statement f p;
      parse_loop f (push_back statements s) p1
    else Some (statements, p)
  end.

(** [Parser::parse]. *)
Definition parse (fuel : nat) (p : t) : option (list Stmt * t) :=
  parse_loop fuel [] p.

(** [Parser(source).parse()] with fuel proportional to the input. *)
Definition parse_source (src : string) : option (list Stmt * t) :=
  parse (32 * String.length src + 64) (new src).

End Parser.

(** ** semantic_analyzer.cpp *)

Module SemanticAnalyzer.

Record Scope : Type := mkScope {
  variables : gmap string string;
  functions : gmap string string;
  structs : gmap string (list (string * string))
}.

(** [scopes] is the [std::vector<Scope>]: outermost first, [back()] last. *)
Record t : Type := mk {
  _hadError : bool;
  scopes : list Scope;
  cerr : list string
}.

(** [SemanticAnalyzer::hadError]. *)
Definition hadError (a : t) : bool := _hadError a.

(** [SemanticAnalyzer::error]. *)
Definition error (message : string) (a : t) : t :=
  mk true (scopes a) (push_back (cerr a) ("Semantic error: " ++ message)).

Definition set_scopes (ss : list Scope) (a : t) : t :=
  mk (_hadError a) ss (cerr a).

(** [SemanticAnalyzer::enterScope]. *)
Definition enterScope (a : t) : t :=
  set_scopes (push_back (scopes a) (mkScope ∅ ∅ ∅)) a.

(** [SemanticAnalyzer::exitScope]: [pop_back] unless empty. *)
Definition exitScope (a : t) : t := set_scopes (removelast (scopes a)) a.

(** A lookup loop [for (it = scopes.rbegin(); it != scopes.rend(); ++it)]
    returning at the first scope that holds [name]. *)
Fixpoint find_rev {V : Type} (sel : Scope -> gmap string V) (name : string)
    (rscopes : list Scope) : option V :=
  match rscopes with
  | [] => None
  | sc :: rest =>
    match sel sc !! name with
    | Some v => Some v
    | None => find_rev sel name rest
    end
  end.

Definition lookup {V : Type} (sel : Scope -> gmap string V) (name : string)
    (a : t) : option V :=
  find_rev sel name (rev (scopes a)).

(** [isVariableDefined], [isFunctionDefined], [isStructDefined]. *)
Definition isVariableDefined (name : string) (a : t) : bool :=
  bool_decide (is_Some (lookup variables name a)).
Definition isFunctionDefined (name : string) (a : t) : bool :=
  bool_decide (is_Some (lookup functions name a)).
Definition isStructDefined (name : string) (a : t) : bool :=
  bool_decide (is_Some (lookup structs name a)).

(** [scopes.back()] updated in place, guarded by [!scopes.empty()]. *)
Fixpoint update_back (f : Scope -> Scope) (ss : list Scope) : list Scope :=
  match ss with
  | [] => []
  | [sc] => [f sc]
  | sc :: rest => sc :: update_back f rest
  end.

(** [defineVariable], [defineFunction], [defineStruct]. *)
Definition defineVariable (name type : string) (a : t) : t :=
  set_scopes
    (update_back (fun sc => mkScope (<[name := type]> (variables sc))
                                    (functions sc) (structs sc)) (scopes a)) a.
Definition defineFunction (name returnType : string) (a : t) : t :=
  set_scopes
    (update_back (fun sc => mkScope (variables sc)
                                    (<[name := returnType]> (functions sc))
                                    (structs sc)) (scopes a)) a.
Definition defineStruct (name : string) (fields : list (string * string))
    (a : t) : t :=
  set_scopes
    (update_back (fun sc => mkScope (variables sc) (functions sc)
                                    (<[name := fields]> (structs sc)))
                 (scopes a)) a.

(** [SemanticAnalyzer::SemanticAnalyzer]. *)
Definition new : t :=
  fold_left (fun a '(name, type) => defineVariable name type a)
    [ ("print", "function"); ("println", "function"); ("error", "function");
      ("assert", "function"); ("len", "function"); ("toString", "function");
      ("parseInt", "function"); ("parseFloat", "function");
      ("isNaN", "function"); ("isFinite", "function"); ("Math", "object");
      ("Date", "object"); ("Array", "object"); ("Object", "object");
      ("String", "object"); ("Number", "object"); ("Boolean", "object");
      ("Error", "object") ]
    (enterScope (mk false [] [])).

Definition neqb (a b : string) : bool := negb (String.eqb a b).

(** The type inferred by [analyzeBinaryExpr] from the operator and the
    operand types; the comparison list of the source names [">"] twice. *)
Definition analyzeBinaryExpr_type (op leftType rightType : string) (a : t)
    : string * t :=
  if String.eqb op "+" then
    if String.eqb leftType "string" || String.eqb rightType "string"
    then ("string", a)
    else if String.eqb leftType "number" || String.eqb rightType "number"
    then ("number", a)
    else (leftType, a)
  else if String.eqb op "-" || String.eqb op "*" || String.eqb op "/" ||
          String.eqb op "%" then
    if String.eqb leftType "number" || String.eqb rightType "number"
    then ("number", a)
    else (leftType, a)
  else if String.eqb op "==" || String.eqb op "!=" || String.eqb op "<" ||
          String.eqb op "<=" || String.eqb op ">" || String.eqb op ">" then
    ("bool", a)
  else if String.eqb op "&&" || String.eqb op "||" then
    let a1 :=
      if neqb leftType "bool" && neqb leftType "any"
      then error ("Logical operator '" ++ op ++
                  "' expects boolean operands, got '" ++ leftType ++ "'.") a
      else a in
    let a2 :=
      if neqb rightType "bool" && neqb rightType "any"
      then error ("Logical operator '" ++ op ++
                  "' expects boolean operands, got '" ++ rightType ++ "'.") a1
      else a1 in
    ("bool", a2)
  else (leftType, a).

(** [analyzeExpression] with the per-kind functions it dispatches to. *)
Fixpoint analyzeExpression (expr : Expr) (a : t) {struct expr} : string * t :=
  match expr with
  | BinaryExpr lhs op rhs =>
    (* analyzeBinaryExpr *)
    let '(leftType, a1) := analyzeExpression lhs a in
    let '(rightType, a2) := analyzeExpression rhs a1 in
    let a3 :=
      if neqb leftType rightType && neqb leftType "any" && neqb rightType "any"
      then error ("Type mismatch in binary expression: expected '" ++
                  leftType ++ "', got '" ++ rightType ++ "'.") a2
      else a2 in
    analyzeBinaryExpr_type op leftType rightType a3
  | UnaryExpr op rhs =>
    (* analyzeUnaryExpr *)
    let '(rightType, a1) := analyzeExpression rhs a in
    if String.eqb op "!" || String.eqb op "!" then
      ("bool",
       if neqb rightType "bool" && neqb rightType "any"
       then error ("Logical operator '" ++ op ++
                   "' expects boolean operand, got '" ++ rightType ++ "'.") a1
       else a1)
    else if String.eqb op "-" then
      ("number",
       if neqb rightType "number" && neqb rightType "any"
       then error ("Unary operator '-' expects number operand, got '" ++
                   rightType ++ "'.") a1
       else a1)
    else (rightType, a1)
  | LiteralExpr value type => (type, a)
  | IdentifierExpr name =>
    (* analyzeIdentifierExpr *)
    if negb (isVariableDefined name a) && negb (isFunctionDefined name a)
    then ("any", error ("Undefined identifier '" ++ name ++ "'.") a)
    else
      match lookup variables name a with
      | Some ty => (ty, a)
      | None =>
        match lookup functions name a with
        | Some ty => (ty, a)
        | None => ("any", a)
        end
      end
  | AssignExpr name value =>
    (* analyzeAssignExpr *)
    let '(valueType, a1) := analyzeExpression value a in
    if negb (isVariableDefined name a1)
    then ("any", error ("Undefined variable '" ++ name ++ "'.") a1)
    else
      let varType := default "any" (lookup variables name a1) in
      (valueType,
       if neqb varType "any" && neqb valueType varType
       then error ("Type mismatch in assignment: expected '" ++ varType ++
                   "', got '" ++ valueType ++ "'.") a1
       else a1)
  | CallExpr callee arguments =>
    (* analyzeCallExpr *)
    let '(calleeType, a1) := analyzeExpression callee a in
    let a2 :=
      match callee with
      | IdentifierExpr funcName =>
        if negb (isFunctionDefined funcName a1) && neqb funcName "println" &&
           neqb funcName "print" && neqb funcName "error"
        then error ("Undefined function '" ++ funcName ++ "'.") a1
        else a1
      | _ => a1
      end in
    let a3 :=
      (fix analyzeArguments (args : list Expr) (a : t) : t :=
         match args with
         | [] => a
         | arg :: rest => analyzeArguments rest (snd (analyzeExpression arg a))
         end) arguments a2 in
    ("any", a3)
  | MemberExpr object name =>
    ("any", snd (analyzeExpression object a))
  | ThisExpr => ("any", a)
  | SuperExpr method => ("any", a)
  | GroupingExpr expression => analyzeExpression expression a
  | _ => ("any", a)
  end.

(** [analyzeBinaryExpr] on its own. *)
Definition analyzeBinaryExpr (lhs : Expr) (op : string) (rhs : Expr)
    (a : t) : string * t :=
  analyzeExpression (BinaryExpr lhs op rhs) a.

Definition valid_type (type : string) (a : t) : bool :=
  String.eqb type "any" || String.eqb type "int" || String.eqb type "float" ||
  String.eqb type "bool" || String.eqb type "string" || isStructDefined type a.

(** [analyzeVarStatement]. *)
Definition analyzeVarStatement (name type0 : string) (initializer : option Expr)
    (a : t) : t :=
  let a1 := if isVariableDefined name a
            then error ("Variable '" ++ name ++ "' is already defined.") a
            else a in
  let '(type, a2) :=
    if String.eqb type0 EmptyString then
      match initializer with
      | Some e => analyzeExpression e a1
      | None => ("any", a1)
      end
    else (type0, a1) in
  let a3 := if negb (valid_type type a2)
            then error ("Unknown type '" ++ type ++ "'.") a2 else a2 in
  let a4 := defineVariable name type a3 in
  match initializer with
  | Some e =>
    let '(initType, a5) := analyzeExpression e a4 in
    if neqb type "any" && neqb initType type
    then error ("Type mismatch: expected '" ++ type ++ "', got '" ++
                initType ++ "'.") a5
    else a5
  | None => a4
  end.

(** [analyzeConstStatement]. *)
Definition analyzeConstStatement (name type0 : string)
    (initializer : option Expr) (a : t) : t :=
  let a1 := if isVariableDefined name a
            then error ("Constant '" ++ name ++ "' is already defined.") a
            else a in
  let '(type, a2) :=
    if String.eqb type0 EmptyString then
      match initializer with
      | Some e => analyzeExpression e a1
      | None => ("any", a1)
      end
    else (type0, a1) in
  let a3 := if negb (valid_type type a2)
            then error ("Unknown type '" ++ type ++ "'.") a2 else a2 in
  let a4 := defineVariable name type a3 in
  match initializer with
  | Some e =>
    let '(initType, a5) := analyzeExpression e a4 in
    if neqb type "any" && neqb initType type
    then error ("Type mismatch: expected '" ++ type ++ "', got '" ++
                initType ++ "'.") a5
    else a5
  | None => error ("Constant '" ++ name ++ "' must be initialized.") a4
  end.

Definition check_condition (what : string) (conditionType : string) (a : t) : t :=
  if neqb conditionType "bool" && neqb conditionType "any"
  then error (what ++ " condition must be a boolean, got '" ++
              conditionType ++ "'.") a
  else a.

(** [analyzeStatement] with the per-kind functions it dispatches to. *)
Fixpoint analyzeStatement (stmt : Stmt) (a : t) {struct stmt} : t :=
  let analyzeStatements :=
    (fix analyzeStatements (l : list Stmt) (a : t) : t :=
       match l with
       | [] => a
       | s :: rest => analyzeStatements rest (analyzeStatement s a)
       end) in
  match stmt with
  | BlockStmt statements =>
    exitScope (analyzeStatements statements (enterScope a))
  | VarStmt name type initializer =>
    analyzeVarStatement name type initializer a
  | ConstStmt name type initializer =>
    analyzeConstStatement name type initializer a
  | FunctionStmt name parameters returnType body _ _ =>
    let a1 := if isFunctionDefined name a
              then error ("Function '" ++ name ++ "' is already defined.") a
              else a in
    let a2 := enterScope (defineFunction name returnType a1) in
    let a3 :=
      fold_left (fun a '(pname, ptype) =>
                   defineVariable pname
                     (if String.eqb ptype EmptyString then "any" else ptype) a)
                parameters a2 in
    exitScope (analyzeStatement body a3)
  | ClassStmt name superclass methods =>
    let a1 := if isStructDefined name a
              then error ("Class '" ++ name ++ "' is already defined.") a
              else a in
    let a2 := if negb (String.eqb superclass EmptyString) &&
                 negb (isStructDefined superclass a1)
              then error ("Superclass '" ++ superclass ++ "' is not defined.") a1
              else a1 in
    exitScope (analyzeStatements methods (enterScope a2))
  | StructStmt name fields =>
    let a1 := if isStructDefined name a
              then error ("Struct '" ++ name ++ "' is already defined.") a
              else a in
    defineStruct name fields a1
  | IfStmt condition thenBranch elseBranch =>
    let '(conditionType, a1) := analyzeExpression condition a in
    let a2 := check_condition "If" conditionType a1 in
    let a3 := analyzeStatement thenBranch a2 in
    match elseBranch with
    | Some s => analyzeStatement s a3
    | None => a3
    end
  | WhileStmt condition body =>
    let '(conditionType, a1) := analyzeExpression condition a in
    analyzeStatement body (check_condition "While" conditionType a1)
  | ForStmt initializer condition increment body =>
    let a1 := match initializer with
              | Some s => analyzeStatement s a
              | None => a
              end in
    let a2 := match condition with
              | Some e =>
                let '(conditionType, a2) := analyzeExpression e a1 in
                check_condition "For" conditionType a2
              | None => a1
              end in
    let a3 := match increment with
              | Some e => snd (analyzeExpression e a2)
              | None => a2
              end in
    analyzeStatement body a3
  | ReturnStmt value =>
    match value with
    | Some e => snd (analyzeExpression e a)
    | None => a
    end
  | ExpressionStmt expression => snd (analyzeExpression expression a)
  | PrintStmt expression => snd (analyzeExpression expression a)
  | TryStmt body catches finally =>
    let a1 := analyzeStatement body a in
    let a2 := analyzeStatements catches a1 in
    match finally with
    | Some s => analyzeStatement s a2
    | None => a2
    end
  | CatchStmt name type body =>
    let a1 := defineVariable name
                (if String.eqb type EmptyString then "Error" else type)
                (enterScope a) in
    exitScope (analyzeStatement body a1)
  | ThrowStmt expression => snd (analyzeExpression expression a)
  | ProcessStmt id body => snd (analyzeExpression body a)
  end.

(** [SemanticAnalyzer::analyze]. *)
Definition analyze (statements : list Stmt) (a : t) : t :=
  fold_left (fun a stmt => analyzeStatement stmt a) statements a.

End SemanticAnalyzer.

End frontend.

Module middleend.
Import frontend.

(** ** ir.h, ir.cpp *)

Inductive OpCode : Set :=
  | ADD | SUB | MUL | DIV | MOD
  | EQ | NE | LT | LE | GT | GE
  | AND | OR | NOT
  | BIT_AND | BIT_OR | BIT_XOR | SHL | SHR | USHR
  | LOAD | STORE | ALLOC | FREE
  | BR | COND_BR | PHI | CALL | RET
  | CONST | GLOBAL | ALLOCA | GETELEMENTPTR.

(** The enum [Type] of ir.h. *)
Inductive Type_ : Set :=
  | VOID | BOOL | INT8 | INT16 | INT32 | INT64 | FLOAT | DOUBLE | POINTER
  | ARRAY | STRUCT.

(** The subclasses of [Instruction]; [name] is the base-class member. *)
Inductive Instruction : Set :=
  | ConstInst (name : string) (type : Type_) (value : string)
  | BinaryInst (name : string) (opcode : OpCode) (type : Type_)
               (left : string) (right : string)
  | UnaryInst (name : string) (opcode : OpCode) (type : Type_) (operand : string)
  | CondBrInst (name : string) (condition trueBlock falseBlock : string)
  | BrInst (name : string) (targetBlock : string)
  | CallInst (name : string) (returnType : Type_) (funcName : string)
             (arguments : list string)
  | RetInst (name : string) (returnType : Type_) (value : string)
  | AllocaInst (name : string) (type : Type_)
  | LoadInst (name : string) (type : Type_) (pointer : string)
  | StoreInst (name : string) (type : Type_) (value : string) (pointer : string)
  | PhiInst (name : string) (type : Type_) (incoming : list (string * string)).

Definition Instruction_name (i : Instruction) : string :=
  match i with
  | ConstInst n _ _ | BinaryInst n _ _ _ _ | UnaryInst n _ _ _
  | CondBrInst n _ _ _ | BrInst n _ | CallInst n _ _ _ | RetInst n _ _
  | AllocaInst n _ | LoadInst n _ _ | StoreInst n _ _ _ | PhiInst n _ _ => n
  end.

Record BasicBlock : Set := mkBasicBlock {
  block_name : string;
  instructions : list Instruction
}.

Record Function : Set := mkFunction {
  function_name : string;
  returnType : Type_;
  basicBlocks : list BasicBlock
}.

Record Module_ : Set := mkModule {
  module_name : string;
  functions : list Function
}.

(** [BasicBlock::addInstruction], [Function::addBasicBlock],
    [Module::addFunction]. *)
Definition addInstruction (instr : Instruction) (b : BasicBlock) : BasicBlock :=
  mkBasicBlock (block_name b) (push_back (instructions b) instr).
Definition addBasicBlock (b : BasicBlock) (f : Function) : Function :=
  mkFunction (function_name f) (returnType f) (push_back (basicBlocks f) b).
Definition addFunction (f : Function) (m : Module_) : Module_ :=
  mkModule (module_name m) (push_back (functions m) f).

(** [typeToString]. *)
Definition typeToString (type : Type_) : string :=
  match type with
  | VOID => "void" | BOOL => "i1" | INT8 => "i8" | INT16 => "i16"
  | INT32 => "i32" | INT64 => "i64" | FLOAT => "float" | DOUBLE => "double"
  | POINTER => "ptr" | ARRAY => "array" | STRUCT => "struct"
  end.

(** [opcodeToString]. *)
Definition opcodeToString (opcode : OpCode) : string :=
  match opcode with
  | ADD => "add" | SUB => "sub" | MUL => "mul" | DIV => "div" | MOD => "mod"
  | EQ => "eq" | NE => "ne" | LT => "lt" | LE => "le" | GT => "gt" | GE => "ge"
  | AND => "and" | OR => "or" | NOT => "not"
  | BIT_AND => "bitand" | BIT_OR => "bitor" | BIT_XOR => "bitxor"
  | SHL => "shl" | SHR => "shr" | USHR => "ushr"
  | LOAD => "load" | STORE => "store" | ALLOC => "alloc" | FREE => "free"
  | BR => "br" | COND_BR => "cond_br" | PHI => "phi" | CALL => "call"
  | RET => "ret"
  | CONST => "const" | GLOBAL => "global" | ALLOCA => "alloca"
  | GETELEMENTPTR => "getelementptr"
  end.

(** The items of a list joined by [", "], as the index loops of
    [CallInst::toString] and [PhiInst::toString] do. *)
Fixpoint join_comma (l : list string) : string :=
  match l with
  | [] => EmptyString
  | [x] => x
  | x :: rest => x ++ ", " ++ join_comma rest
  end.

(** [Instruction::toString] of each subclass. *)
Definition Instruction_toString (i : Instruction) : string :=
  match i with
  | ConstInst _ type value => "const " ++ typeToString type ++ " " ++ value
  | BinaryInst _ opcode type l r =>
    opcodeToString opcode ++ " " ++ typeToString type ++ " " ++ l ++ ", " ++ r
  | UnaryInst _ opcode type operand =>
    opcodeToString opcode ++ " " ++ typeToString type ++ " " ++ operand
  | CondBrInst _ condition trueBlock falseBlock =>
    "cond_br i1 " ++ condition ++ ", label %" ++ trueBlock ++ ", label %" ++
    falseBlock
  | BrInst _ targetBlock => "br label %" ++ targetBlock
  | CallInst _ returnType funcName arguments =>
    "call " ++ typeToString returnType ++ " @" ++ funcName ++ "(" ++
    join_comma arguments ++ ")"
  | RetInst _ returnType value =>
    match returnType with
    | VOID => "ret void"
    | _ => "ret " ++ typeToString returnType ++ " " ++ value
    end
  | AllocaInst _ type => "alloca " ++ typeToString type
  | LoadInst _ type pointer => "load " ++ typeToString type ++ ", ptr " ++ pointer
  | StoreInst _ type value pointer =>
    "store " ++ typeToString type ++ " " ++ value ++ ", ptr " ++ pointer
  | PhiInst _ type incoming =>
    "phi " ++ typeToString type ++ " [" ++
    join_comma (map (fun '(v, lbl) => v ++ ", label %" ++ lbl) incoming) ++ "]"
  end.

(** [BasicBlock::toString]. *)
Definition BasicBlock_toString (b : BasicBlock) : string :=
  fold_left
    (fun result instr =>
       (if negb (String.eqb (Instruction_name instr) EmptyString)
        then result ++ "  " ++ Instruction_name instr ++ " = "
        else result ++ "  ") ++ Instruction_toString instr ++ endl)
    (instructions b) (block_name b ++ ":" ++ endl).

(** [Function::toString]. *)
Definition Function_toString (f : Function) : string :=
  fold_left (fun result block => result ++ BasicBlock_toString block ++ endl)
    (basicBlocks f)
    ("define " ++ typeToString (returnType f) ++ " @" ++ function_name f ++
     "() {" ++ endl) ++ "}" ++ endl.

(** [Module::toString]. *)
Definition Module_toString (m : Module_) : string :=
  fold_left (fun result func => result ++ Function_toString func ++ endl)
    (functions m) ("module @" ++ module_name m ++ endl ++ endl).

(** ** codegen.cpp *)

Module CodeGenerator.

(** [currentBlock] points into [currentFunction->basicBlocks]; it is the
    index of that block.  The three pointers are null in a fresh generator
    and [generate] sets them before anything reads them. *)
Record t : Type := mk {
  module : Module_;
  currentFunction : Function;
  currentBlock : nat;
  instrCount : Z;
  blockCount : Z;
  variableMap : gmap string string
}.

(** [CodeGenerator::CodeGenerator]. *)
Definition new : t :=
  mk (mkModule EmptyString []) (mkFunction EmptyString VOID []) 0 0 0 ∅.

(** [generateInstrName], [generateBlockName]. *)
Definition generateInstrName (g : t) : string * t :=
  ("%instr" ++ int_to_string (instrCount g),
   mk (module g) (currentFunction g) (currentBlock g) (instrCount g + 1)
      (blockCount g) (variableMap g)).
Definition generateBlockName (g : t) : string * t :=
  ("block" ++ int_to_string (blockCount g),
   mk (module g) (currentFunction g) (currentBlock g) (instrCount g)
      (blockCount g + 1) (variableMap g)).

Definition set_currentFunction (f : Function) (g : t) : t :=
  mk (module g) f (currentBlock g) (instrCount g) (blockCount g) (variableMap g).
Definition set_currentBlock (b : nat) (g : t) : t :=
  mk (module g) (currentFunction g) b (instrCount g) (blockCount g)
     (variableMap g).
Definition set_variableMap (m : gmap string string) (g : t) : t :=
  mk (module g) (currentFunction g) (currentBlock g) (instrCount g)
     (blockCount g) m.
Definition set_module (m : Module_) (g : t) : t :=
  mk m (currentFunction g) (currentBlock g) (instrCount g) (blockCount g)
     (variableMap g).

(** The instruction [instr] appended to the current block. *)
Definition emit (instr : Instruction) (g : t) : t :=
  let f := currentFunction g in
  set_currentFunction
    (mkFunction (function_name f) (returnType f)
       (alter (addInstruction instr) (currentBlock g) (basicBlocks f))) g.

(** [currentBlock->addInstruction(std::move(instr))] on the local
    [std::unique_ptr] [instr].  [addInstruction] takes its parameter by
    value, so the instruction moves into the block and [instr] is left
    null: the result is the value of [instr] after the call, [None], with
    the new state. *)
Definition addInstruction_move (instr : Instruction) (g : t)
    : option Instruction * t :=
  (None, emit instr g).

(** [instr->name] on a [std::unique_ptr]: a null pointer is dereferenced. *)
Definition name_of (instr : option Instruction) : option string :=
  match instr with
  | Some i => Some (Instruction_name i)
  | None => None
  end.

(** [auto b = std::make_unique<BasicBlock>(generateBlockName())]: the block
    is built now and appended by [appendBlock] later; the result is the
    block together with the index it gets in [currentFunction]. *)
Definition newBlock (g : t) : BasicBlock * t :=
  let '(name, g1) := generateBlockName g in (mkBasicBlock name [], g1).

(** [currentFunction->addBasicBlock(std::move(b))], giving the index of
    the appended block. *)
Definition appendBlock (b : BasicBlock) (g : t) : nat * t :=
  (length (basicBlocks (currentFunction g)),
   set_currentFunction (addBasicBlock b (currentFunction g)) g).

(** The [create...] helpers that name their instruction:
    [instr->name = generateInstrName();
     currentBlock->addInstruction(std::move(instr));
     return instr->name;]
    The last line reads the name through [instr] after the move. *)
Definition createConstant (type : Type_) (value : string) (g : t)
    : option (string * t) :=
  let '(name, g1) := generateInstrName g in
  let '(instr, g2) := addInstruction_move (ConstInst name type value) g1 in
  result ← name_of instr; Some (result, g2).
Definition createBinaryOp (opcode : OpCode) (type : Type_) (l r : string)
    (g : t) : option (string * t) :=
  let '(name, g1) := generateInstrName g in
  let '(instr, g2) := addInstruction_move (BinaryInst name opcode type l r) g1 in
  result ← name_of instr; Some (result, g2).
Definition createUnaryOp (opcode : OpCode) (type : Type_) (operand : string)
    (g : t) : option (string * t) :=
  let '(name, g1) := generateInstrName g in
  let '(instr, g2) := addInstruction_move (UnaryInst name opcode type operand) g1 in
  result ← name_of instr; Some (result, g2).
Definition createCall (returnType : Type_) (funcName : string)
    (arguments : list string) (g : t) : option (string * t) :=
  let '(name, g1) := generateInstrName g in
  let '(instr, g2) :=
    addInstruction_move (CallInst name returnType funcName arguments) g1 in
  result ← name_of instr; Some (result, g2).
Definition createAlloca (type : Type_) (g : t) : option (string * t) :=
  let '(name, g1) := generateInstrName g in
  let '(instr, g2) := addInstruction_move (AllocaInst name type) g1 in
  result ← name_of instr; Some (result, g2).
Definition createLoad (type : Type_) (pointer : string) (g : t)
    : option (string * t) :=
  let '(name, g1) := generateInstrName g in
  let '(instr, g2) := addInstruction_move (LoadInst name type pointer) g1 in
  result ← name_of instr; Some (result, g2).

(** The helpers that return nothing: the instruction is not named and
    [instr] is not read after the move. *)
Definition createStore (type : Type_) (value pointer : string) (g : t) : t :=
  snd (addInstruction_move (StoreInst EmptyString type value pointer) g).
Definition createCondBr (condition trueBlock falseBlock : string) (g : t) : t :=
  snd (addInstruction_move (CondBrInst EmptyString condition trueBlock falseBlock) g).
Definition createBr (targetBlock : string) (g : t) : t :=
  snd (addInstruction_move (BrInst EmptyString targetBlock) g).
Definition createRet (returnType : Type_) (value : string) (g : t) : t :=
  snd (addInstruction_move (RetInst EmptyString returnType value) g).

(** [getTypeFromASTType]. *)
Definition getTypeFromASTType (astType : string) : Type_ :=
  if String.eqb astType "int" || String.eqb astType "number" then INT32
  else if String.eqb astType "float" || String.eqb astType "double" then FLOAT
  else if String.eqb astType "bool" then BOOL
  else if String.eqb astType "string" then POINTER
  else INT32.

(** The opcode chosen by [visitBinaryExpr] and by [visitUnaryExpr]. *)
Definition binaryOpcode (op : string) : OpCode :=
  if String.eqb op "+" then ADD
  else if String.eqb op "-" then SUB
  else if String.eqb op "*" then MUL
  else if String.eqb op "/" then DIV
  else if String.eqb op "%" then MOD
  else if String.eqb op "==" then EQ
  else if String.eqb op "!=" then NE
  else if String.eqb op "<" then LT
  else if String.eqb op "<=" then LE
  else if String.eqb op ">" then GT
  else if String.eqb op ">=" then GE
  else if String.eqb op "&&" then AND
  else if String.eqb op "||" then OR
  else ADD.
Definition unaryOpcode (op : string) : OpCode :=
  if String.eqb op "!" then NOT
  else if String.eqb op "-" then SUB
  else NOT.

(** [visitLiteralExpr]. *)
Definition visitLiteralExpr (value type : string) (g : t) : option (string * t) :=
  let ty := if String.eqb type "number" then INT32
            else if String.eqb type "string" then POINTER
            else if String.eqb type "bool" then BOOL
            else INT32 in
  createConstant ty value g.

(** [visitIdentifierExpr]. *)
Definition visitIdentifierExpr (name : string) (g : t) : option (string * t) :=
  match variableMap g !! name with
  | Some pointer => createLoad INT32 pointer g
  | None => createConstant INT32 "0" g
  end.

(** The tail of [visitAssignExpr] after the right-hand side is lowered. *)
Definition assignTo (name value : string) (g : t) : option (string * t) :=
  match variableMap g !! name with
  | Some pointer => Some (value, createStore INT32 value pointer g)
  | None =>
    '(alloca, g1) ← createAlloca INT32 g;
    let g2 := createStore INT32 value alloca g1 in
    Some (value, set_variableMap (<[name := alloca]> (variableMap g2)) g2)
  end.

(** [visitExpression] on a non-null node, with the per-kind functions it
    dispatches to. *)
Fixpoint visitExpression (expr : Expr) (g : t) {struct expr}
    : option (string * t) :=
  match expr with
  | BinaryExpr lhs op rhs =>
    '(l, g1) ← visitExpression lhs g;
    '(r, g2) ← visitExpression rhs g1;
    createBinaryOp (binaryOpcode op) INT32 l r g2
  | UnaryExpr op rhs =>
    '(operand, g1) ← visitExpression rhs g;
    createUnaryOp (unaryOpcode op) INT32 operand g1
  | LiteralExpr value type => visitLiteralExpr value type g
  | IdentifierExpr name => visitIdentifierExpr name g
  | AssignExpr name value =>
    '(v, g1) ← visitExpression value g;
    assignTo name v g1
  | CallExpr callee arguments =>
    '(funcName, args, g3) ←
      match callee with
      | IdentifierExpr name =>
        if String.eqb name "println" then
          match arguments with
          | arg :: _ =>
            let fmt := match arg with
                       | LiteralExpr _ type =>
                         if String.eqb type "string" then "%s" ++ endl
                         else "%d" ++ endl
                       | _ => "%d" ++ endl
                       end in
            '(a1, g1) ← createConstant POINTER fmt g;
            '(a2, g2) ← visitExpression arg g1;
            Some ("printf", [a1; a2], g2)
          | [] =>
            '(a1, g1) ← createConstant POINTER endl g;
            Some ("printf", [a1], g1)
          end
        else
          '(args, g1) ←
            (fix visitArguments (l : list Expr) (acc : list string) (g : t)
               : option (list string * t) :=
               match l with
               | [] => Some (acc, g)
               | arg :: rest =>
                 '(a, g1) ← visitExpression arg g;
                 visitArguments rest (push_back acc a) g1
               end) arguments [] g;
          Some (name, args, g1)
      | _ => Some ("printf", [], g)
      end;
    createCall INT32 funcName args g3
  | MemberExpr object name => visitExpression object g
  | GroupingExpr expression => visitExpression expression g
  | _ => createConstant INT32 "0" g
  end.

(** [visitExpression] on a pointer: [expr->getType()] dereferences it. *)
Definition visitExpression_ptr (expr : option Expr) (g : t) : option (string * t) :=
  match expr with
  | Some e => visitExpression e g
  | None => None
  end.

(** [visitVarStmt]. *)
Definition visitVarStmt (name : string) (initializer : option Expr) (g : t)
    : option t :=
  '(init, g1) ← match initializer with
                | Some e => visitExpression e g
                | None => createConstant INT32 "0" g
                end;
  '(alloca, g2) ← createAlloca INT32 g1;
  let g3 := createStore INT32 init alloca g2 in
  Some (set_variableMap (<[name := alloca]> (variableMap g3)) g3).

(** [visitConstStmt]. *)
Definition visitConstStmt (name : string) (initializer : option Expr) (g : t)
    : option t :=
  '(init, g1) ← match initializer with
                | Some e => visitExpression e g
                | None => createConstant INT32 "0" g
                end;
  '(alloca, g2) ← createAlloca INT32 g1;
  let g3 := createStore INT32 init alloca g2 in
  Some (set_variableMap (<[name := alloca]> (variableMap g3)) g3).

(** [visitPrintStmt]. *)
Definition visitPrintStmt (expression : Expr) (g : t) : option t :=
  '(e, g1) ← visitExpression expression g;
  '(fmt, g2) ← createConstant POINTER ("%d" ++ endl) g1;
  '(_, g3) ← createCall INT32 "printf" [fmt; e] g2;
  Some g3.

(** [visitReturnStmt]. *)
Definition visitReturnStmt (value : option Expr) (g : t) : option t :=
  match value with
  | Some e =>
    '(v, g1) ← visitExpression e g; Some (createRet INT32 v g1)
  | None =>
    '(v, g1) ← createConstant INT32 "0" g; Some (createRet INT32 v g1)
  end.

(** [visitStatement] with the per-kind functions it dispatches to; the
    case the source spells [StmtType::FN] is the function declaration.
    [None] is a null-pointer dereference. *)
Fixpoint visitStatement (stmt : Stmt) (g : t) {struct stmt} : option t :=
  match stmt with
  | ExpressionStmt expression =>
    '(_, g1) ← visitExpression expression g; Some g1
  | PrintStmt expression => visitPrintStmt expression g
  | VarStmt name _ initializer => visitVarStmt name initializer g
  | ConstStmt name _ initializer => visitConstStmt name initializer g
  | FunctionStmt name _ _ body _ _ =>
    (* visitFunctionStmt *)
    let func := mkFunction name INT32 [] in
    let '(entryBlock, g1) := newBlock g in
    let func := addBasicBlock entryBlock func in
    let oldFunction := currentFunction g1 in
    let oldBlock := currentBlock g1 in
    let oldVariableMap := variableMap g1 in
    let g2 := set_variableMap ∅ (set_currentBlock 0 (set_currentFunction func g1)) in
    g3 ← visitStatement body g2;
    '(zero, g4) ← createConstant INT32 "0" g3;
    let g5 := createRet INT32 zero g4 in
    let g6 := set_module (addFunction (currentFunction g5) (module g5)) g5 in
    Some (set_variableMap oldVariableMap
            (set_currentBlock oldBlock (set_currentFunction oldFunction g6)))
  | ReturnStmt value => visitReturnStmt value g
  | BlockStmt statements =>
    (fix visitStatements (l : list Stmt) (g : t) : option t :=
       match l with
       | [] => Some g
       | s :: rest => g1 ← visitStatement s g; visitStatements rest g1
       end) statements g
  | IfStmt condition thenBranch elseBranch =>
    (* visitIfStmt *)
    '(cond, g1) ← visitExpression condition g;
    let '(thenBlock, g2) := newBlock g1 in
    let '(elseBlock, g3) := newBlock g2 in
    let '(mergeBlock, g4) := newBlock g3 in
    let '(thenBlockPtr, g5) := appendBlock thenBlock g4 in
    let '(elseBlockPtr, g6) := appendBlock elseBlock g5 in
    let '(mergeBlockPtr, g7) := appendBlock mergeBlock g6 in
    let g8 := createCondBr cond (block_name thenBlock) (block_name elseBlock) g7 in
    g9 ← visitStatement thenBranch (set_currentBlock thenBlockPtr g8);
    let g10 := createBr (block_name mergeBlock) g9 in
    g11 ← match elseBranch with
          | Some s => visitStatement s (set_currentBlock elseBlockPtr g10)
          | None => Some (set_currentBlock elseBlockPtr g10)
          end;
    let g12 := createBr (block_name mergeBlock) g11 in
    Some (set_currentBlock mergeBlockPtr g12)
  | WhileStmt condition body =>
    (* visitWhileStmt *)
    let '(conditionBlock, g1) := newBlock g in
    let '(bodyBlock, g2) := newBlock g1 in
    let '(mergeBlock, g3) := newBlock g2 in
    let '(conditionBlockPtr, g4) := appendBlock conditionBlock g3 in
    let '(bodyBlockPtr, g5) := appendBlock bodyBlock g4 in
    let '(mergeBlockPtr, g6) := appendBlock mergeBlock g5 in
    let g7 := createBr (block_name conditionBlock) g6 in
    '(cond, g8) ← visitExpression condition (set_currentBlock conditionBlockPtr g7);
    let g9 := createCondBr cond (block_name bodyBlock) (block_name mergeBlock) g8 in
    g10 ← visitStatement body (set_currentBlock bodyBlockPtr g9);
    let g11 := createBr (block_name conditionBlock) g10 in
    Some (set_currentBlock mergeBlockPtr g11)
  | ForStmt initializer condition increment body =>
    (* visitForStmt *)
    g0 ← match initializer with
         | Some s => visitStatement s g
         | None => Some g
         end;
    let '(conditionBlock, g1) := newBlock g0 in
    let '(bodyBlock, g2) := newBlock g1 in
    let '(incrementBlock, g3) := newBlock g2 in
    let '(mergeBlock, g4) := newBlock g3 in
    let '(conditionBlockPtr, g5) := appendBlock conditionBlock g4 in
    let '(bodyBlockPtr, g6) := appendBlock bodyBlock g5 in
    let '(incrementBlockPtr, g7) := appendBlock incrementBlock g6 in
    let '(mergeBlockPtr, g8) := appendBlock mergeBlock g7 in
    let g9 := createBr (block_name conditionBlock) g8 in
    '(cond, g10) ← visitExpression_ptr condition (set_currentBlock conditionBlockPtr g9);
    let g11 := createCondBr cond (block_name bodyBlock) (block_name mergeBlock) g10 in
    g12 ← visitStatement body (set_currentBlock bodyBlockPtr g11);
    let g13 := createBr (block_name incrementBlock) g12 in
    '(_, g14) ← visitExpression_ptr increment (set_currentBlock incrementBlockPtr g13);
    let g15 := createBr (block_name conditionBlock) g14 in
    Some (set_currentBlock mergeBlockPtr g15)
  | StructStmt _ _ => Some g
  | ClassStmt _ _ _ => Some g
  | _ => Some g
  end.

(** [for (const auto& stmt : statements) visitStatement(stmt.get());] *)
Fixpoint visitStatements (l : list Stmt) (g : t) : option t :=
  match l with
  | [] => Some g
  | s :: rest => g1 ← visitStatement s g; visitStatements rest g1
  end.

(** [CodeGenerator::generate]. *)
Definition generate (statements : list Stmt) (g : t) : option Module_ :=
  let g1 := set_module (mkModule "main" []) g in
  let g2 := set_currentFunction (mkFunction "main" INT32 []) g1 in
  let '(entryBlock, g3) := newBlock g2 in
  let '(entryPtr, g4) := appendBlock entryBlock g3 in
  let g5 := set_currentBlock entryPtr g4 in
  g6 ← visitStatements statements g5;
  '(zero, g7) ← createConstant INT32 "0" g6;
  let g8 := createRet INT32 zero g7 in
  Some (addFunction (currentFunction g8) (module g8)).

End CodeGenerator.

(** ** optimizer.cpp *)

Module Optimizer.

(** [Optimizer::tryMergeConstants]. *)
Definition tryMergeConstants (instr : Instruction) : bool := false.

Definition replace_name (oldName newName x : string) : string :=
  if String.eqb x oldName then newName else x.

(** [Optimizer::replaceInstructionUse]. *)
Definition replaceInstructionUse (oldName newName : string) (block : BasicBlock)
    : BasicBlock :=
  let r := replace_name oldName newName in
  mkBasicBlock (block_name block)
    (map (fun instr =>
            match instr with
            | BinaryInst n opcode type l rr => BinaryInst n opcode type (r l) (r rr)
            | UnaryInst n opcode type operand => UnaryInst n opcode type (r operand)
            | CallInst n returnType funcName arguments =>
              CallInst n returnType funcName (map r arguments)
            | LoadInst n type pointer => LoadInst n type (r pointer)
            | StoreInst n type value pointer => StoreInst n type (r value) (r pointer)
            | CondBrInst n condition trueBlock falseBlock =>
              CondBrInst n (r condition) trueBlock falseBlock
            | other => other
            end)
         (instructions block)).

(** [Optimizer::constantFolding]: the loop visits the positions of the
    block in order and reads the instruction now at each. *)
Definition constantFolding (block : BasicBlock) : BasicBlock :=
  fold_left
    (fun b i =>
       match instructions b !! i with
       | Some (BinaryInst n _ _ _ _ as binaryInst) =>
         if tryMergeConstants binaryInst then replaceInstructionUse n n b else b
       | _ => b
       end)
    (seq 0 (length (instructions block))) block.

(** [Optimizer::simplifyExpressions]: the loop body is empty. *)
Definition simplifyExpressions (block : BasicBlock) : BasicBlock :=
  fold_left
    (fun b instr => match instr with BinaryInst _ _ _ _ _ => b | _ => b end)
    (instructions block) block.

(** [Optimizer::isDeadCode]. *)
Definition isDeadCode (instr : Instruction) : bool :=
  if String.eqb (Instruction_name instr) EmptyString then false
  else match instr with
       | RetInst _ _ _ => false
       | BrInst _ _ | CondBrInst _ _ _ _ => false
       | StoreInst _ _ _ _ => false
       | CallInst _ _ _ _ => false
       | ConstInst _ _ _ => false
       | AllocaInst _ _ => false
       | _ => false
       end.

(** [Optimizer::deadCodeElimination]: the marked positions are erased from
    the last to the first. *)
Definition deadCodeElimination (block : BasicBlock) : BasicBlock :=
  let toDelete :=
    List.filter (fun i => match instructions block !! i with
                          | Some instr => isDeadCode instr
                          | None => false
                          end)
                (seq 0 (length (instructions block))) in
  mkBasicBlock (block_name block)
    (fold_left (fun instrs i => delete i instrs) (rev toDelete)
               (instructions block)).

(** [Optimizer::optimizeBlock], [optimizeFunction], [optimize]. *)
Definition optimizeBlock (block : BasicBlock) : BasicBlock :=
  deadCodeElimination (simplifyExpressions (constantFolding block)).
Definition optimizeFunction (func : Function) : Function :=
  mkFunction (function_name func) (returnType func)
             (map optimizeBlock (basicBlocks func)).
Definition optimize (module : Module_) : Module_ :=
  mkModule (module_name module) (map optimizeFunction (functions module)).

End Optimizer.

End middleend.

Import frontend middleend.

(** ** The programs of the scenarios *)

Definition while_source : string :=
  "let x:int=1; while(x<3){ println(x); x=x+1; }".

Definition while_program : list Stmt :=
  [ VarStmt "x" "int" (Some (LiteralExpr "1" "number"));
    WhileStmt
      (BinaryExpr (IdentifierExpr "x") "<" (LiteralExpr "3" "number"))
      (BlockStmt
         [ ExpressionStmt
             (CallExpr (IdentifierExpr "println") [IdentifierExpr "x"]);
           ExpressionStmt
             (AssignExpr "x"
                (BinaryExpr (IdentifierExpr "x") "+"
                            (LiteralExpr "1" "number"))) ]) ].

Definition if_source : string :=
  "if (x>0) { println(1); } else { println(2); }".

Definition if_program : list Stmt :=
  [ IfStmt
      (BinaryExpr (IdentifierExpr "x") ">" (LiteralExpr "0" "number"))
      (BlockStmt
         [ ExpressionStmt
             (CallExpr (IdentifierExpr "println") [LiteralExpr "1" "number"]) ])
      (Some
         (BlockStmt
            [ ExpressionStmt
                (CallExpr (IdentifierExpr "println")
                          [LiteralExpr "2" "number"]) ])) ].

Definition for_source : string := "for(;;){}".

Definition for_program : list Stmt :=
  [ ForStmt None None None (BlockStmt []) ].

Definition for_no_increment_source : string := "for(;x;){}".

Definition for_no_increment_program : list Stmt :=
  [ ForStmt None (Some (IdentifierExpr "x")) None (BlockStmt []) ].

(** The result of [Parser(src).parse()] with the parser's error flag. *)
Definition parsed (src : string) : option (list Stmt * bool) :=
  match Parser.parse_source src with
  | Some (stmts, p) => Some (stmts, Parser.hadError p)
  | None => None
  end.

(** ** Notions used by the properties *)

(** The kinds and lexemes of all tokens of a source text. *)
Definition kinds (src : string) : list (TokenType * string) :=
  map (fun tk => (Token.type tk, Token.lexeme tk))
      (Lexer.tokenize (S (String.length src)) (Lexer.new src)).

(** [l'] is [l] further along the same source text, with the same pushback
    slot. *)
Definition later (l l' : Lexer.t) : Prop :=
  Lexer.source l' = Lexer.source l /\
  Lexer.position l <= Lexer.position l' /\
  Lexer.ungotToken l' = Lexer.ungotToken l.

(** The characters [skipWhitespace] does not stop at. *)
Definition skipped_char (c : ascii) : bool :=
  Ascii.eqb c " " || Ascii.eqb c TAB || Ascii.eqb c CR || Ascii.eqb c LF ||
  Ascii.eqb c "/".

(** A token that is neither DIVIDE nor DIVIDE_ASSIGN. *)
Definition no_division (tk : Token.t) : Prop :=
  Token.type tk <> DIVIDE /\ Token.type tk <> DIVIDE_ASSIGN.

(** The rounds the loop of [Parser::advance] can still make. *)
Definition rounds (l : Lexer.t) : nat :=
  Lexer.remaining l + match Lexer.ungotToken l with Some _ => 1 | None => 0 end.


(** ** Induction on the syntax tree *)

Section Expr_induction.
Variable P : Expr -> Prop.
Hypothesis HBinary : forall l op r, P l -> P r -> P (BinaryExpr l op r).
Hypothesis HUnary : forall op r, P r -> P (UnaryExpr op r).
Hypothesis HLiteral : forall v ty, P (LiteralExpr v ty).
Hypothesis HIdentifier : forall n, P (IdentifierExpr n).
Hypothesis HAssign : forall n v, P v -> P (AssignExpr n v).
Hypothesis HCall : forall c args, P c -> Forall P args -> P (CallExpr c args).
Hypothesis HMember : forall o n, P o -> P (MemberExpr o n).
Hypothesis HThis : P ThisExpr.
Hypothesis HSuper : forall m, P (SuperExpr m).
Hypothesis HGrouping : forall e, P e -> P (GroupingExpr e).
Hypothesis HArray : forall es, Forall P es -> P (ArrayExpr es).
Hypothesis HObject : forall ps, Forall (fun p => P (snd p)) ps -> P (ObjectExpr ps).
Hypothesis HIndex : forall o i, P o -> P i -> P (IndexExpr o i).
Hypothesis HLambda : forall ps b, P b -> P (LambdaExpr ps b).
Hypothesis HAwait : forall e, P e -> P (AwaitExpr e).
Hypothesis HYield : forall e, P e -> P (YieldExpr e).

Fixpoint Expr_ind (e : Expr) : P e :=
  match e with
  | BinaryExpr l op r => HBinary l op r (Expr_ind l) (Expr_ind r)
  | UnaryExpr op r => HUnary op r (Expr_ind r)
  | LiteralExpr v ty => HLiteral v ty
  | IdentifierExpr n => HIdentifier n
  | AssignExpr n v => HAssign n v (Expr_ind v)
  | CallExpr c args =>
    HCall c args (Expr_ind c)
      ((fix go (l : list Expr) : Forall P l :=
          match l with
          | [] => @List.Forall_nil _ P
          | x :: rest => @List.Forall_cons _ P x rest (Expr_ind x) (go rest)
          end) args)
  | MemberExpr o n => HMember o n (Expr_ind o)
  | ThisExpr => HThis
  | SuperExpr m => HSuper m
  | GroupingExpr e => HGrouping e (Expr_ind e)
  | ArrayExpr es =>
    HArray es
      ((fix go (l : list Expr) : Forall P l :=
          match l with
          | [] => @List.Forall_nil _ P
          | x :: rest => @List.Forall_cons _ P x rest (Expr_ind x) (go rest)
          end) es)
  | ObjectExpr ps =>
    HObject ps
      ((fix go (l : list (string * Expr)) : Forall (fun p => P (snd p)) l :=
          match l with
          | [] => @List.Forall_nil _ _
          | x :: rest => @List.Forall_cons _ _ x rest (Expr_ind (snd x)) (go rest)
          end) ps)
  | IndexExpr o i => HIndex o i (Expr_ind o) (Expr_ind i)
  | LambdaExpr ps b => HLambda ps b (Expr_ind b)
  | AwaitExpr e => HAwait e (Expr_ind e)
  | YieldExpr e => HYield e (Expr_ind e)
  end.
End Expr_induction.

(** [P] holds of the statement in an optional child, if there is one. *)
Definition optionP {A : Type} (P : A -> Prop) (o : option A) : Prop :=
  match o with Some x => P x | None => True end.

Section Stmt_induction.
Variable P : Stmt -> Prop.
Hypothesis HExpression : forall e, P (ExpressionStmt e).
Hypothesis HPrint : forall e, P (PrintStmt e).
Hypothesis HVar : forall n ty i, P (VarStmt n ty i).
Hypothesis HConst : forall n ty i, P (ConstStmt n ty i).
Hypothesis HBlock : forall l, Forall P l -> P (BlockStmt l).
Hypothesis HIf : forall c t e, P t -> optionP P e -> P (IfStmt c t e).
Hypothesis HWhile : forall c b, P b -> P (WhileStmt c b).
Hypothesis HFor : forall i c inc b, optionP P i -> P b -> P (ForStmt i c inc b).
Hypothesis HReturn : forall v, P (ReturnStmt v).
Hypothesis HFunction : forall n ps rt b a c, P b -> P (FunctionStmt n ps rt b a c).
Hypothesis HClass : forall n sc ms, Forall P ms -> P (ClassStmt n sc ms).
Hypothesis HStruct : forall n fs, P (StructStmt n fs).
Hypothesis HTry : forall b cs f, P b -> Forall P cs -> optionP P f -> P (TryStmt b cs f).
Hypothesis HCatch : forall n ty b, P b -> P (CatchStmt n ty b).
Hypothesis HThrow : forall e, P (ThrowStmt e).
Hypothesis HProcess : forall id b, P (ProcessStmt id b).

Fixpoint Stmt_ind (s : Stmt) : P s :=
  let all :=
    fix go (l : list Stmt) : Forall P l :=
      match l with
      | [] => @List.Forall_nil _ P
      | x :: rest => @List.Forall_cons _ P x rest (Stmt_ind x) (go rest)
      end in
  let opt (o : option Stmt) : optionP P o :=
    match o with Some x => Stmt_ind x | None => I end in
  match s with
  | ExpressionStmt e => HExpression e
  | PrintStmt e => HPrint e
  | VarStmt n ty i => HVar n ty i
  | ConstStmt n ty i => HConst n ty i
  | BlockStmt l => HBlock l (all l)
  | IfStmt c t e => HIf c t e (Stmt_ind t) (opt e)
  | WhileStmt c b => HWhile c b (Stmt_ind b)
  | ForStmt i c inc b => HFor i c inc b (opt i) (Stmt_ind b)
  | ReturnStmt v => HReturn v
  | FunctionStmt n ps rt b a c => HFunction n ps rt b a c (Stmt_ind b)
  | ClassStmt n sc ms => HClass n sc ms (all ms)
  | StructStmt n fs => HStruct n fs
  | TryStmt b cs f => HTry b cs f (Stmt_ind b) (all cs) (opt f)
  | CatchStmt n ty b => HCatch n ty b (Stmt_ind b)
  | ThrowStmt e => HThrow e
  | ProcessStmt id b => HProcess id b
  end.
End Stmt_induction.

(** ** Diagnostics and scopes of the semantic analyzer *)

(** From [a] to [a'] the analyzer wrote the diagnostics [msgs], each behind
    the prefix of [SemanticAnalyzer::error], and the error flag is set if it
    was set before or a diagnostic was written. *)
Definition reports (a a' : SemanticAnalyzer.t) : Prop :=
  exists msgs,
    SemanticAnalyzer.cerr a' = app (SemanticAnalyzer.cerr a) msgs /\
    SemanticAnalyzer.hadError a' =
      (SemanticAnalyzer.hadError a || match msgs with [] => false | _ => true end) /\
    Forall (fun m => exists message, m = "Semantic error: " ++ message) msgs.

(** From [a] to [a'] the scopes are the same. *)
Definition reads (a a' : SemanticAnalyzer.t) : Prop :=
  SemanticAnalyzer.scopes a' = SemanticAnalyzer.scopes a /\ reports a a'.

(** From [a] to [a'] there are as many scopes as before, and all but the
    innermost are the same. *)
Definition declares (a a' : SemanticAnalyzer.t) : Prop :=
  length (SemanticAnalyzer.scopes a') = length (SemanticAnalyzer.scopes a) /\
  removelast (SemanticAnalyzer.scopes a') = removelast (SemanticAnalyzer.scopes a) /\
  reports a a'.

(** ** Error recovery of the parser *)

(** A parser at a statement boundary: at the end of the input, behind a
    semicolon, or before a token that starts a statement. *)
Definition synchronized (p : Parser.t) : Prop :=
  Token.type (Parser.currentToken p) = END_OF_FILE \/
  Token.type (Parser.previousToken p) = SEMICOLON \/
  Parser.starts_statement (Token.type (Parser.currentToken p)) = true.


(** * Properties *)

(** ** Parsing the scenario programs *)

Lemma parse_while_source : parsed while_source = Some (while_program, false).
Proof. vm_compute. reflexivity. Qed.

Lemma parse_if_source : parsed if_source = Some (if_program, false).
Proof. vm_compute. reflexivity. Qed.

Lemma parse_for_source : parsed for_source = Some (for_program, false).
Proof. vm_compute. reflexivity. Qed.

(** ** Semantic analyzer *)

(** C2: analysing the while scenario, whose integer literals the parser
    types "number", reports four type mismatches against the declared "int",
    so [hadError()] is true afterwards. *)
Theorem C2_while_program_has_errors :
  parsed while_source = Some (while_program, false) /\
  let a := SemanticAnalyzer.analyze while_program SemanticAnalyzer.new in
  SemanticAnalyzer.hadError a = true /\
  SemanticAnalyzer.cerr a =
    [ "Semantic error: Type mismatch: expected 'int', got 'number'.";
      "Semantic error: Type mismatch in binary expression: expected 'int', got 'number'.";
      "Semantic error: Type mismatch in binary expression: expected 'int', got 'number'.";
      "Semantic error: Type mismatch in assignment: expected 'int', got 'number'." ].
Proof. vm_compute. repeat split; reflexivity. Qed.

(** The five comparison operators the source lists type to "bool" whatever
    the operands are. *)
Lemma analyzeBinaryExpr_listed_comparison lhs op rhs a :
  In op ["=="; "!="; "<"; "<="; ">"] ->
  fst (SemanticAnalyzer.analyzeBinaryExpr lhs op rhs a) = "bool".
Proof.
  intros Hop. unfold SemanticAnalyzer.analyzeBinaryExpr. simpl.
  destruct (SemanticAnalyzer.analyzeExpression lhs a) as [lt a1].
  destruct (SemanticAnalyzer.analyzeExpression rhs a1) as [rt a2].
  simpl in Hop.
  destruct Hop as [<-|[<-|[<-|[<-|[<-|[]]]]]]; reflexivity.
Qed.

(** For [>=] the result is the type of the left operand. *)
Lemma analyzeBinaryExpr_ge lhs rhs a :
  fst (SemanticAnalyzer.analyzeBinaryExpr lhs ">=" rhs a) =
  fst (SemanticAnalyzer.analyzeExpression lhs a).
Proof.
  unfold SemanticAnalyzer.analyzeBinaryExpr. simpl.
  destruct (SemanticAnalyzer.analyzeExpression lhs a) as [lt a1].
  destruct (SemanticAnalyzer.analyzeExpression rhs a1) as [rt a2].
  reflexivity.
Qed.

(** C3: for [1 >= 2] [analyzeBinaryExpr] returns "number", not "bool". *)
Theorem C3_greater_equal_not_bool :
  fst (SemanticAnalyzer.analyzeBinaryExpr
         (LiteralExpr "1" "number") ">=" (LiteralExpr "2" "number")
         SemanticAnalyzer.new) = "number".
Proof. rewrite analyzeBinaryExpr_ge. reflexivity. Qed.

(** ** Lexer *)

(** A line comment between two tokens reads like white space. *)
Lemma line_comment_skipped :
  kinds ("a // c" ++ endl ++ "b") = kinds ("a" ++ endl ++ "b").
Proof. vm_compute. reflexivity. Qed.

(** C5: a [/] that begins no comment starts a line comment all the same, so
    no DIVIDE token comes back for [6/2]; and a block comment is skipped only
    up to the end of its first line, so the tokens of its second line come
    back where white space in its place gives [a b]. *)
Theorem C5_slash_always_starts_line_comment :
  kinds "6/2" = [(INTEGER, "6"); (END_OF_FILE, EmptyString)] /\
  kinds ("a /* x" ++ endl ++ "y */ b") =
    [(IDENTIFIER, "a"); (IDENTIFIER, "y"); (MULTIPLY, "*");
     (END_OF_FILE, EmptyString)] /\
  kinds ("a      " ++ endl ++ "     b") =
    [(IDENTIFIER, "a"); (IDENTIFIER, "b"); (END_OF_FILE, EmptyString)].
Proof. vm_compute. repeat split; reflexivity. Qed.

(** [getNextToken] hands back a pushed-back token and empties the slot. *)
Lemma getNextToken_ungetToken t l :
  Lexer.getNextToken (Lexer.ungetToken t l) =
  (t, Lexer.mk (Lexer.source l) (Lexer.position l) (Lexer.line l)
               (Lexer.column l) None).
Proof. reflexivity. Qed.

(** C9 (as amended): [ungetToken(t)] then [getNextToken()] returns [t]; when
    the pushback slot was empty the lexer is back in the state it had, so
    the tokens that follow are the ones that would have followed. *)
Theorem C9_unget_get_roundtrip (l : Lexer.t) (t : Token.t) :
  fst (Lexer.getNextToken (Lexer.ungetToken t l)) = t /\
  (Lexer.ungotToken l = None ->
   snd (Lexer.getNextToken (Lexer.ungetToken t l)) = l /\
   forall n, Lexer.tokens n (snd (Lexer.getNextToken (Lexer.ungetToken t l)))
             = Lexer.tokens n l).
Proof.
  rewrite getNextToken_ungetToken. split; [reflexivity|].
  intros Hslot. destruct l as [src pos ln col ungot]. simpl in *.
  subst ungot. split; [reflexivity|]. intros n. reflexivity.
Qed.

Lemma C9_unget_get_roundtrip_witness :
  let l := Lexer.new "a" in
  let t := Token.mk COMMA "," 1 1 in
  Lexer.ungotToken l = None /\
  fst (Lexer.getNextToken (Lexer.ungetToken t l)) = t /\
  snd (Lexer.getNextToken (Lexer.ungetToken t l)) = l.
Proof.
  intros l t. split; [reflexivity|].
  destruct (C9_unget_get_roundtrip l t) as [H1 H2].
  split; [exact H1|]. apply H2. reflexivity.
Defined.

(** C9 (as stated) fails when a token is already pushed back: it is lost,
    and the next token differs from the one that was pending. *)
Lemma C9_counterexample :
  let l := Lexer.ungetToken (Token.mk SEMICOLON ";" 1 1) (Lexer.new "a") in
  let t := Token.mk COMMA "," 1 1 in
  Lexer.tokens 1 (snd (Lexer.getNextToken (Lexer.ungetToken t l)))
  <> Lexer.tokens 1 l.
Proof. vm_compute. discriminate. Qed.

(** ** Progress of the lexer and the parser's token cursor *)

Lemma TokenType_eqb_eq a b : TokenType_eqb a b = true <-> a = b.
Proof.
  unfold TokenType_eqb. rewrite Nat.eqb_eq. split; [|intros ->; reflexivity].
  destruct a; simpl; intros H; destruct b; simpl in H;
    first [reflexivity | discriminate H].
Qed.

Lemma TokenType_eqb_neq a b : TokenType_eqb a b = false <-> a <> b.
Proof.
  rewrite <- TokenType_eqb_eq. destruct (TokenType_eqb a b); split; congruence.
Qed.

Lemma later_refl l : later l l.
Proof. unfold later. auto. Qed.

Lemma later_trans l1 l2 l3 : later l1 l2 -> later l2 l3 -> later l1 l3.
Proof.
  unfold later. intros (Hs1 & Hp1 & Hu1) (Hs2 & Hp2 & Hu2).
  repeat split; [congruence | lia | congruence].
Qed.

Lemma later_advance l : later l (snd (Lexer.advance l)).
Proof.
  unfold later, Lexer.advance.
  destruct (Ascii.eqb _ _); simpl; repeat split; lia.
Qed.

Lemma advance_position l :
  Lexer.position (snd (Lexer.advance l)) = S (Lexer.position l).
Proof. unfold Lexer.advance. destruct (Ascii.eqb _ _); reflexivity. Qed.

Lemma later_match_ c l : later l (snd (Lexer.match_ c l)).
Proof.
  unfold later, Lexer.match_.
  destruct (_ || _); simpl; repeat split; lia.
Qed.

Lemma later_advance_while fuel cond l :
  later l (Lexer.advance_while fuel cond l).
Proof.
  revert l. induction fuel as [|fuel IH]; intros l; simpl.
  - apply later_refl.
  - destruct (cond l); [|apply later_refl].
    eapply later_trans; [apply later_advance|apply IH].
Qed.

Lemma later_set_line l ln col :
  later l (Lexer.set_pos l (Lexer.position l) ln col).
Proof. unfold later. simpl. auto. Qed.

Lemma later_skipBlockBody fuel l : later l (Lexer.skipBlockBody fuel l).
Proof.
  revert l. induction fuel as [|fuel IH]; intros l; simpl.
  - apply later_refl.
  - destruct (_ && _); [|apply later_refl].
    eapply later_trans; [|apply IH].
    destruct (Ascii.eqb _ _).
    + eapply later_trans; [apply later_set_line|apply later_advance].
    + apply later_advance.
Qed.

Lemma later_skipWhitespace l : later l (Lexer.skipWhitespace l).
Proof.
  unfold Lexer.skipWhitespace. generalize (S (Lexer.remaining l)) as fuel.
  intros fuel. revert l. induction fuel as [|fuel IH]; intros l; simpl.
  - apply later_refl.
  - destruct (Lexer.isAtEnd l); [apply later_refl|].
    destruct (_ || _).
    { eapply later_trans; [apply later_advance|apply IH]. }
    destruct (Ascii.eqb (Lexer.peek l) "/"); [|apply later_refl].
    eapply later_trans; [|apply IH]. apply later_advance_while.
Qed.

Create HintDb later.

Lemma later_advance' l x : later l x -> later l (snd (Lexer.advance x)).
Proof. intros H. eapply later_trans; [exact H|apply later_advance]. Qed.

Lemma later_advance_while' l x fuel cond :
  later l x -> later l (Lexer.advance_while fuel cond x).
Proof. intros H. eapply later_trans; [exact H|apply later_advance_while]. Qed.

Lemma later_digits' l x : later l x -> later l (Lexer.digits x).
Proof. apply later_advance_while'. Qed.

#[local] Hint Resolve later_refl later_advance' later_advance_while'
  later_digits' : later.

Ltac case_ifs :=
  repeat match goal with
         | |- context [if ?b then _ else _] => destruct b
         end.

Lemma later_tok ty lexeme l : later l (snd (Lexer.tok ty lexeme l)).
Proof. apply later_refl. Qed.

Lemma later_on_match c l yes no :
  (forall l, later l (snd (yes l))) -> (forall l, later l (snd (no l))) ->
  later l (snd (Lexer.on_match c l yes no)).
Proof.
  intros Hyes Hno. unfold Lexer.on_match.
  pose proof (later_match_ c l) as Hm.
  destruct (Lexer.match_ c l) as [[] l']; simpl in Hm;
    (eapply later_trans; [exact Hm|]); auto.
Qed.

Lemma later_number l : later l (snd (Lexer.number l)).
Proof. unfold Lexer.number. case_ifs; simpl; auto 10 with later. Qed.

Lemma later_identifier l : later l (snd (Lexer.identifier l)).
Proof.
  unfold Lexer.identifier.
  destruct (Lexer.keywords_find _ _); simpl; auto with later.
Qed.

Lemma later_string_loop fuel l : later l (Lexer.string_loop fuel l).
Proof.
  revert l. induction fuel as [|fuel IH]; intros l; simpl.
  - apply later_refl.
  - destruct (_ && _); [|apply later_refl].
    eapply later_trans; [|apply IH]. case_ifs; auto with later.
Qed.

Lemma later_string_ l : later l (snd (Lexer.string_ l)).
Proof.
  unfold Lexer.string_.
  pose proof (later_string_loop (Lexer.remaining l) l).
  case_ifs; simpl; auto with later.
Qed.

Lemma later_character l : later l (snd (Lexer.character l)).
Proof. unfold Lexer.character. case_ifs; simpl; auto 10 with later. Qed.

#[local] Hint Resolve later_tok later_on_match later_number later_identifier
  later_string_ later_character : later.

(** [scanToken] consumes at least one character. *)
Lemma scanToken_progress l :
  Lexer.source (snd (Lexer.scanToken l)) = Lexer.source l /\
  Lexer.position l < Lexer.position (snd (Lexer.scanToken l)) /\
  Lexer.ungotToken (snd (Lexer.scanToken l)) = Lexer.ungotToken l.
Proof.
  assert (H : later (snd (Lexer.advance l)) (snd (Lexer.scanToken l))).
  { unfold Lexer.scanToken. destruct (Lexer.advance l) as [c l1]. simpl.
    case_ifs; auto 10 with later. }
  pose proof (later_advance l) as (Hs & _ & Hu).
  pose proof (advance_position l) as Hp.
  destruct H as (Hs' & Hp' & Hu').
  repeat split; [congruence | lia | congruence].
Qed.

(** *** The loops of the lexer stop by their condition *)

Lemma remaining_advance l :
  Lexer.isAtEnd l = false ->
  Lexer.remaining (snd (Lexer.advance l)) < Lexer.remaining l.
Proof.
  intros Hend. unfold Lexer.isAtEnd in Hend. apply Nat.leb_gt in Hend.
  pose proof (later_advance l) as (Hs & _ & _).
  pose proof (advance_position l) as Hp.
  unfold Lexer.remaining. rewrite Hs, Hp. lia.
Qed.

Lemma remaining_later l l' :
  later l l' -> Lexer.remaining l' <= Lexer.remaining l.
Proof. intros (Hs & Hp & _). unfold Lexer.remaining. rewrite Hs. lia. Qed.

(** A loop [while (cond) advance();] whose condition fails at the end of the
    input stops because its condition fails. *)
Lemma advance_while_exit fuel cond l :
  (forall l, cond l = true -> Lexer.isAtEnd l = false) ->
  Lexer.remaining l <= fuel ->
  cond (Lexer.advance_while fuel cond l) = false.
Proof.
  intros Hcond. revert l. induction fuel as [|fuel IH]; intros l Hfuel; simpl.
  - destruct (cond l) eqn:Hc; [|reflexivity].
    apply Hcond in Hc. unfold Lexer.isAtEnd in Hc. apply Nat.leb_gt in Hc.
    unfold Lexer.remaining in Hfuel. lia.
  - destruct (cond l) eqn:Hc; [|exact Hc].
    apply IH. pose proof (remaining_advance l (Hcond l Hc)). lia.
Qed.

(** [skipComment] stops at the end of the input or of the line. *)
Lemma skipComment_exit l :
  Lexer.isAtEnd (Lexer.skipComment l) = true \/
  Lexer.peek (Lexer.skipComment l) = LF.
Proof.
  unfold Lexer.skipComment.
  set (cond := fun l => negb (Lexer.isAtEnd l) && negb (Ascii.eqb (Lexer.peek l) LF)).
  assert (Hexit : cond (Lexer.advance_while (Lexer.remaining l) cond l) = false).
  { apply advance_while_exit; [|lia].
    intros l0 H0. apply andb_prop in H0 as [H0 _].
    apply negb_true_iff in H0. exact H0. }
  unfold cond at 1 in Hexit. apply andb_false_iff in Hexit as [Hexit|Hexit].
  - left. apply negb_false_iff in Hexit. exact Hexit.
  - right. apply negb_false_iff, Ascii.eqb_eq in Hexit. exact Hexit.
Qed.

(** At a character that is no line feed [skipComment] consumes input. *)
Lemma skipComment_progress l :
  Lexer.isAtEnd l = false -> Ascii.eqb (Lexer.peek l) LF = false ->
  Lexer.remaining (Lexer.skipComment l) < Lexer.remaining l.
Proof.
  intros Hend Hlf. unfold Lexer.skipComment.
  pose proof (remaining_advance l Hend) as Hadv.
  destruct (Lexer.remaining l) as [|n] eqn:Hrem; [lia|].
  simpl. rewrite Hend, Hlf. simpl.
  pose proof (remaining_later _ _
                (later_advance_while n
                   (fun l => negb (Lexer.isAtEnd l) && negb (Ascii.eqb (Lexer.peek l) LF))
                   (snd (Lexer.advance l)))).
  lia.
Qed.

(** [skipWhitespace] stops at the end of the input or at a character that is
    neither white space nor a slash. *)
Lemma skipWhitespace_exit l :
  Lexer.isAtEnd (Lexer.skipWhitespace l) = true \/
  skipped_char (Lexer.peek (Lexer.skipWhitespace l)) = false.
Proof.
  unfold Lexer.skipWhitespace.
  assert (H : forall fuel l, Lexer.remaining l < fuel ->
    Lexer.isAtEnd (Lexer.skipWhitespace_loop fuel l) = true \/
    skipped_char (Lexer.peek (Lexer.skipWhitespace_loop fuel l)) = false);
    [|apply H; lia].
  clear l. intros fuel. induction fuel as [|fuel IH]; intros l Hfuel; [lia|].
  simpl. destruct (Lexer.isAtEnd l) eqn:Hend; [left; exact Hend|].
  destruct (_ || _) eqn:Hspace.
  { apply IH. pose proof (remaining_advance l Hend). lia. }
  destruct (Ascii.eqb (Lexer.peek l) "/") eqn:Hslash.
  - apply IH.
    assert (Hlf : Ascii.eqb (Lexer.peek l) LF = false).
    { apply Ascii.eqb_eq in Hslash. rewrite Hslash. reflexivity. }
    pose proof (skipComment_progress l Hend Hlf). lia.
  - right. unfold skipped_char. rewrite Hspace, Hslash. reflexivity.
Qed.

(** *** No division token is ever scanned *)

Create HintDb nodiv.

Lemma no_division_tok ty lexeme l :
  ty <> DIVIDE -> ty <> DIVIDE_ASSIGN -> no_division (fst (Lexer.tok ty lexeme l)).
Proof. intros H1 H2. split; assumption. Qed.

Lemma no_division_on_match c l yes no :
  (forall l, no_division (fst (yes l))) -> (forall l, no_division (fst (no l))) ->
  no_division (fst (Lexer.on_match c l yes no)).
Proof.
  intros Hyes Hno. unfold Lexer.on_match.
  destruct (Lexer.match_ c l) as [[] l']; auto.
Qed.

Lemma keywords_find_In lexeme ty m :
  Lexer.keywords_find lexeme m = Some ty -> In ty (map snd m).
Proof.
  induction m as [|[k v] m IH]; simpl; [discriminate|].
  destruct (String.eqb lexeme k); [intros [= <-]; left; reflexivity|].
  intros H. right. apply IH, H.
Qed.

Lemma keywords_no_division lexeme ty :
  Lexer.keywords_find lexeme Lexer.keywords = Some ty ->
  ty <> DIVIDE /\ ty <> DIVIDE_ASSIGN.
Proof.
  intros H. apply keywords_find_In in H.
  assert (Hall : forallb (fun ty => negb (TokenType_eqb ty DIVIDE) &&
                                    negb (TokenType_eqb ty DIVIDE_ASSIGN))
                         (map snd Lexer.keywords) = true) by reflexivity.
  rewrite forallb_forall in Hall. apply Hall in H.
  apply andb_prop in H as [H1 H2].
  apply negb_true_iff in H1, H2.
  split; apply TokenType_eqb_neq; assumption.
Qed.

Lemma no_division_identifier l : no_division (fst (Lexer.identifier l)).
Proof.
  unfold Lexer.identifier.
  destruct (Lexer.keywords_find _ _) as [ty|] eqn:Hkw; cbn [fst].
  - apply keywords_no_division in Hkw. exact Hkw.
  - split; discriminate.
Qed.

Lemma no_division_number l : no_division (fst (Lexer.number l)).
Proof.
  unfold Lexer.number, no_division, Lexer.makeToken.
  case_ifs; cbn [fst Token.type]; split; discriminate.
Qed.

Lemma no_division_string_ l : no_division (fst (Lexer.string_ l)).
Proof.
  unfold Lexer.string_, no_division, Lexer.makeToken, Lexer.errorToken.
  case_ifs; cbn [fst Token.type]; split; discriminate.
Qed.

Lemma no_division_character l : no_division (fst (Lexer.character l)).
Proof.
  unfold Lexer.character, no_division, Lexer.makeToken, Lexer.errorToken.
  case_ifs; cbn [fst Token.type]; split; discriminate.
Qed.

#[local] Hint Resolve no_division_on_match no_division_identifier
  no_division_number no_division_string_ no_division_character : nodiv.
#[local] Hint Extern 1 (no_division (fst (Lexer.tok _ _ _))) =>
  apply no_division_tok; discriminate : nodiv.

Lemma advance_char l :
  fst (Lexer.advance l) = char_at (Lexer.source l) (Lexer.position l).
Proof. unfold Lexer.advance. destruct (Ascii.eqb _ _); reflexivity. Qed.

Ltac top_ifs :=
  repeat match goal with
         | |- no_division (fst (if ?b then _ else _)) => destruct b
         end.

(** [scanToken] returns a division token at a slash only. *)
Lemma scanToken_no_division l :
  Ascii.eqb (char_at (Lexer.source l) (Lexer.position l)) "/" = false ->
  no_division (fst (Lexer.scanToken l)).
Proof.
  intros Hslash. unfold Lexer.scanToken.
  rewrite <- advance_char in Hslash.
  destruct (Lexer.advance l) as [c l1]. simpl in Hslash. rewrite Hslash.
  top_ifs; auto 6 with nodiv. split; discriminate.
Qed.

(** No scan returns a DIVIDE or DIVIDE_ASSIGN token: [skipWhitespace] takes
    every slash for the start of a line comment, so [scanToken] never sees
    one. *)
Lemma getNextToken_no_division l :
  Lexer.ungotToken l = None -> no_division (fst (Lexer.getNextToken l)).
Proof.
  intros Hslot. unfold Lexer.getNextToken. rewrite Hslot.
  destruct (skipWhitespace_exit l) as [Hend|Hchar].
  { rewrite Hend. split; discriminate. }
  destruct (Lexer.isAtEnd (Lexer.skipWhitespace l)) eqn:Hend;
    [split; discriminate|].
  apply scanToken_no_division.
  unfold skipped_char, Lexer.peek in Hchar. rewrite Hend in Hchar.
  apply orb_false_iff in Hchar as [_ Hchar]. exact Hchar.
Qed.

(** *** The loop of [Parser::advance] *)

(** A scan that does not report the end of the input consumes input. *)
Lemma getNextToken_progress l :
  Lexer.ungotToken l = None ->
  Lexer.ungotToken (snd (Lexer.getNextToken l)) = None /\
  (Token.type (fst (Lexer.getNextToken l)) = END_OF_FILE \/
   Lexer.remaining (snd (Lexer.getNextToken l)) < Lexer.remaining l).
Proof.
  intros Hslot. unfold Lexer.getNextToken. rewrite Hslot.
  pose proof (later_skipWhitespace l) as (Hs & Hp & Hu).
  destruct (Lexer.isAtEnd (Lexer.skipWhitespace l)) eqn:Hend; simpl.
  - split; [congruence|]. left. reflexivity.
  - pose proof (scanToken_progress (Lexer.skipWhitespace l)) as (Hs' & Hp' & Hu').
    split; [congruence|]. right.
    unfold Lexer.isAtEnd in Hend. apply Nat.leb_gt in Hend.
    unfold Lexer.remaining. rewrite Hs', Hs in *. lia.
Qed.

Lemma advance_loop_exits fuel p :
  rounds (Parser.lexer p) < fuel ->
  TokenType_eqb (Token.type (Parser.currentToken (Parser.advance_loop fuel p)))
                ERROR = false.
Proof.
  revert p. induction fuel as [|fuel IH]; intros p Hfuel; [lia|].
  simpl. destruct (Lexer.getNextToken (Parser.lexer p)) as [tk lx] eqn:Hget.
  destruct (TokenType_eqb (Token.type tk) ERROR) eqn:Herr; simpl.
  - apply IH. simpl. unfold rounds in *.
    destruct (Lexer.ungotToken (Parser.lexer p)) as [u|] eqn:Hslot.
    + unfold Lexer.getNextToken in Hget. rewrite Hslot in Hget.
      injection Hget as <- <-. simpl. unfold Lexer.remaining in *. simpl. lia.
    + pose proof (getNextToken_progress _ Hslot) as (Hnone & Hprog).
      rewrite Hget in Hnone, Hprog. simpl in Hnone, Hprog. rewrite Hnone.
      destruct Hprog as [Heof|Hlt]; [|lia].
      rewrite Heof in Herr. discriminate Herr.
  - exact Herr.
Qed.

Lemma advance_loop_previousToken fuel p :
  Parser.previousToken (Parser.advance_loop fuel p) = Parser.previousToken p.
Proof.
  revert p. induction fuel as [|fuel IH]; intros p; simpl; [reflexivity|].
  destruct (Lexer.getNextToken (Parser.lexer p)) as [tk lx].
  destruct (negb _); [reflexivity|]. rewrite IH. reflexivity.
Qed.

(** [Parser::advance] leaves its loop through the [break]: the new current
    token is not an ERROR token, and the old one is the previous token. *)
Lemma advance_currentToken p :
  TokenType_eqb (Token.type (Parser.currentToken (Parser.advance p))) ERROR = false.
Proof.
  unfold Parser.advance. apply advance_loop_exits. simpl. unfold rounds.
  destruct (Lexer.ungotToken _); lia.
Qed.

Lemma advance_previousToken p :
  Parser.previousToken (Parser.advance p) = Parser.currentToken p.
Proof. unfold Parser.advance. rewrite advance_loop_previousToken. reflexivity. Qed.

(** When the lexer's next token is no ERROR token, [advance] makes it the
    current token and keeps the lexer that produced it. *)
Lemma advance_next_token p tk lx :
  Lexer.getNextToken (Parser.lexer p) = (tk, lx) ->
  Token.type tk <> ERROR ->
  Parser.advance p =
  Parser.mk lx tk (Parser.currentToken p) (Parser.hadError p) (Parser.cerr p).
Proof.
  intros Hget Hok. apply TokenType_eqb_neq in Hok.
  unfold Parser.advance. rewrite Nat.add_comm. simpl. rewrite Hget, Hok.
  reflexivity.
Qed.

(** C8: on a mismatch [consume] writes the one diagnostic
    [Error at line L, column C: message] for the position of the current
    token, sets the error flag, returns the current token and leaves lexer,
    current and previous token as they were; on a match it returns the
    matched token and advances: the matched token becomes the previous token
    and the current token is the next token of the lexer that is no ERROR
    token. *)
Theorem C8_consume (type : TokenType) (message : string) (p : Parser.t) :
  (Token.type (Parser.currentToken p) <> type ->
   Parser.consume type message p =
   (Parser.currentToken p,
    Parser.mk (Parser.lexer p) (Parser.currentToken p) (Parser.previousToken p)
      true
      (app (Parser.cerr p)
           ["Error at line " ++
            int_to_string (Token.line (Parser.currentToken p)) ++
            ", column " ++
            int_to_string (Token.column (Parser.currentToken p)) ++
            ": " ++ message]))) /\
  (Token.type (Parser.currentToken p) = type ->
   Parser.consume type message p = (Parser.currentToken p, Parser.advance p) /\
   Parser.previousToken (Parser.advance p) = Parser.currentToken p /\
   Token.type (Parser.currentToken (Parser.advance p)) <> ERROR /\
   forall tk lx,
     Lexer.getNextToken (Parser.lexer p) = (tk, lx) -> Token.type tk <> ERROR ->
     Parser.advance p =
     Parser.mk lx tk (Parser.currentToken p) (Parser.hadError p) (Parser.cerr p)).
Proof.
  unfold Parser.consume, Parser.check. split.
  - intros Hne. apply TokenType_eqb_neq in Hne. rewrite Hne. reflexivity.
  - intros Heq. apply TokenType_eqb_eq in Heq. rewrite Heq.
    split; [reflexivity|]. split; [apply advance_previousToken|].
    split; [apply TokenType_eqb_neq, advance_currentToken|].
    intros tk lx. apply advance_next_token.
Qed.

Lemma C8_consume_witness :
  let p := Parser.new "let x" in
  Token.type (Parser.currentToken p) <> IDENTIFIER /\
  Parser.cerr (snd (Parser.consume IDENTIFIER "Expect variable name." p)) =
    ["Error at line 1, column 1: Expect variable name."] /\
  Token.type (Parser.currentToken p) = LET /\
  Token.lexeme (Parser.currentToken (snd (Parser.consume LET "Expect 'let'." p)))
    = "x".
Proof.
  intros p.
  assert (Hne : Token.type (Parser.currentToken p) <> IDENTIFIER)
    by (vm_compute; discriminate).
  assert (Heq : Token.type (Parser.currentToken p) = LET) by reflexivity.
  split; [exact Hne|]. split.
  - rewrite (proj1 (C8_consume IDENTIFIER "Expect variable name." p) Hne).
    vm_compute. reflexivity.
  - split; [exact Heq|].
    rewrite (proj1 (proj2 (C8_consume LET "Expect 'let'." p) Heq)).
    vm_compute. reflexivity.
Defined.

(** ** Optimizer *)

Lemma isDeadCode_false instr : Optimizer.isDeadCode instr = false.
Proof.
  unfold Optimizer.isDeadCode.
  destruct (String.eqb _ _); [reflexivity|]. destruct instr; reflexivity.
Qed.

Lemma constantFolding_id block : Optimizer.constantFolding block = block.
Proof.
  unfold Optimizer.constantFolding.
  generalize (seq 0 (length (instructions block))) as positions.
  intros positions. induction positions as [|i positions IH]; simpl.
  - reflexivity.
  - destruct (instructions block !! i) as [[]|]; exact IH.
Qed.

Lemma simplifyExpressions_id block : Optimizer.simplifyExpressions block = block.
Proof.
  unfold Optimizer.simplifyExpressions.
  generalize (instructions block) as l.
  intros l. induction l as [|instr l IH]; simpl.
  - reflexivity.
  - destruct instr; exact IH.
Qed.

Lemma deadCodeElimination_id block : Optimizer.deadCodeElimination block = block.
Proof.
  unfold Optimizer.deadCodeElimination.
  assert (Hnone : forall positions,
    List.filter (fun i => match instructions block !! i with
                          | Some instr => Optimizer.isDeadCode instr
                          | None => false
                          end) positions = []).
  { intros positions. induction positions as [|i positions IH]; simpl.
    - reflexivity.
    - destruct (instructions block !! i) as [instr|]; [|exact IH].
      rewrite isDeadCode_false. exact IH. }
  rewrite Hnone. simpl. destruct block; reflexivity.
Qed.

Lemma optimizeBlock_id block : Optimizer.optimizeBlock block = block.
Proof.
  unfold Optimizer.optimizeBlock.
  rewrite constantFolding_id, simplifyExpressions_id.
  apply deadCodeElimination_id.
Qed.

Lemma map_id_ext {A : Type} (f : A -> A) (l : list A) :
  (forall x, f x = x) -> map f l = l.
Proof.
  intros Hf. induction l as [|x l IH]; simpl; [reflexivity|].
  rewrite Hf, IH. reflexivity.
Qed.

Lemma optimize_id m : Optimizer.optimize m = m.
Proof.
  unfold Optimizer.optimize, Optimizer.optimizeFunction.
  destruct m as [name funcs]. simpl. f_equal.
  apply map_id_ext. intros [fname ret blocks]. simpl. f_equal.
  apply map_id_ext. exact optimizeBlock_id.
Qed.

(** C6: [optimize] leaves every module as it is, so the text of the module
    after one run and after two runs is the text before. *)
Theorem C6_optimize_idempotent_text (m : Module_) :
  Module_toString (Optimizer.optimize m) = Module_toString m /\
  Module_toString (Optimizer.optimize (Optimizer.optimize m)) =
  Module_toString (Optimizer.optimize m).
Proof. rewrite !optimize_id. split; reflexivity. Qed.

(** ** Code generator *)

(** Every helper that names its instruction faults: the name is read
    through the pointer the instruction was moved out of. *)
Lemma createConstant_faults type value g :
  CodeGenerator.createConstant type value g = None.
Proof. reflexivity. Qed.

Lemma createBinaryOp_faults opcode type l r g :
  CodeGenerator.createBinaryOp opcode type l r g = None.
Proof. reflexivity. Qed.

Lemma createUnaryOp_faults opcode type operand g :
  CodeGenerator.createUnaryOp opcode type operand g = None.
Proof. reflexivity. Qed.

Lemma createCall_faults type funcName arguments g :
  CodeGenerator.createCall type funcName arguments g = None.
Proof. reflexivity. Qed.

Lemma createAlloca_faults type g : CodeGenerator.createAlloca type g = None.
Proof. reflexivity. Qed.

Lemma createLoad_faults type pointer g :
  CodeGenerator.createLoad type pointer g = None.
Proof. reflexivity. Qed.

Lemma visitIdentifierExpr_faults name g :
  CodeGenerator.visitIdentifierExpr name g = None.
Proof.
  unfold CodeGenerator.visitIdentifierExpr.
  destruct (CodeGenerator.variableMap g !! name);
    [apply createLoad_faults|apply createConstant_faults].
Qed.

(** Lowering an expression ends in one of these helpers, whatever the
    expression. *)
Lemma visitExpression_faults expr :
  forall g, CodeGenerator.visitExpression expr g = None.
Proof.
  induction expr as [l op r IHl IHr | op r IHr | v ty | n | n v IHv
                    | c args IHc IHargs | o n IHo | | m | e IHe | es IHes
                    | ps IHps | o i IHo IHi | ps b IHb | e IHe | e IHe]
    using Expr_ind;
    intros g; cbn [CodeGenerator.visitExpression];
    try reflexivity; try apply visitIdentifierExpr_faults.
  - rewrite IHl. reflexivity.
  - rewrite IHr. reflexivity.
  - rewrite IHv. reflexivity.
  - destruct c; try reflexivity.
    destruct (String.eqb name "println"); [destruct args; reflexivity|].
    destruct args as [|arg rest]; [reflexivity|].
    apply Forall_cons in IHargs as [Harg _].
    cbn [mbind option_bind]. rewrite Harg. reflexivity.
  - apply IHo.
  - apply IHe.
Qed.

(** C4: [for(;;){}] parses without error into a [for] statement with no
    condition and no increment, the semantic analyzer accepts it, and
    lowering it dereferences the null condition; lowering [for(;x;){}],
    which has a condition and no increment, faults as well. *)
Theorem C4_for_without_condition_faults :
  parsed for_source = Some (for_program, false) /\
  SemanticAnalyzer.hadError
    (SemanticAnalyzer.analyze for_program SemanticAnalyzer.new) = false /\
  CodeGenerator.generate for_program CodeGenerator.new = None /\
  parsed for_no_increment_source = Some (for_no_increment_program, false) /\
  CodeGenerator.generate for_no_increment_program CodeGenerator.new = None.
Proof. vm_compute. repeat split; reflexivity. Qed.

(** A [for] statement without condition faults in every generator
    state. *)
Lemma visitForStmt_null_condition initializer increment body g :
  CodeGenerator.visitStatement (ForStmt initializer None increment body) g = None.
Proof.
  simpl. destruct initializer as [s|]; simpl.
  - destruct (CodeGenerator.visitStatement s g); reflexivity.
  - reflexivity.
Qed.

(** C10: lowering an identifier without entry in the variable map takes the
    branch of the constant [0] and faults there: no name is returned. *)
Theorem C10_unbound_identifier_faults (name : string) (g : CodeGenerator.t) :
  CodeGenerator.variableMap g !! name = None ->
  CodeGenerator.visitIdentifierExpr name g =
    CodeGenerator.createConstant INT32 "0" g /\
  CodeGenerator.visitIdentifierExpr name g = None /\
  CodeGenerator.visitExpression (IdentifierExpr name) g = None.
Proof.
  intros Hunbound. unfold CodeGenerator.visitExpression,
    CodeGenerator.visitIdentifierExpr.
  rewrite Hunbound. repeat split.
Qed.

Lemma C10_unbound_identifier_faults_witness :
  CodeGenerator.variableMap CodeGenerator.new !! "x" = None /\
  CodeGenerator.visitIdentifierExpr "x" CodeGenerator.new = None.
Proof.
  split; [reflexivity|].
  exact (proj1 (proj2 (C10_unbound_identifier_faults "x" CodeGenerator.new
                         eq_refl))).
Defined.

(** C7: the if/else scenario parses without error, and lowering it faults
    in the condition, in every generator state: no module is returned and no
    block is counted. *)
Theorem C7_if_else_faults :
  parsed if_source = Some (if_program, false) /\
  (forall g,
     CodeGenerator.visitExpression
       (BinaryExpr (IdentifierExpr "x") ">" (LiteralExpr "0" "number")) g = None) /\
  (forall g, CodeGenerator.visitStatements if_program g = None) /\
  (forall g, CodeGenerator.generate if_program g = None).
Proof.
  split; [exact parse_if_source|].
  split; [intros g; apply visitExpression_faults|].
  assert (H : forall g, CodeGenerator.visitStatements if_program g = None).
  { intros g. unfold if_program.
    cbn [CodeGenerator.visitStatements CodeGenerator.visitStatement].
    rewrite visitExpression_faults. reflexivity. }
  split; [exact H|].
  intros g. unfold CodeGenerator.generate.
  cbn [CodeGenerator.newBlock CodeGenerator.generateBlockName
       CodeGenerator.appendBlock].
  rewrite H. reflexivity.
Qed.

(** C1: [generate] returns no module, whatever the statement list and the
    generator state: past the statements it builds the constant of the
    implicit [return 0], and that helper faults. *)
Theorem C1_generate_returns_no_module (statements : list Stmt)
    (g : CodeGenerator.t) :
  CodeGenerator.generate statements g = None.
Proof.
  unfold CodeGenerator.generate.
  cbn [CodeGenerator.newBlock CodeGenerator.generateBlockName
       CodeGenerator.appendBlock].
  match goal with
  | |- context [CodeGenerator.visitStatements statements ?g5] =>
    destruct (CodeGenerator.visitStatements statements g5)
  end; reflexivity.
Qed.

(** ** Scopes and diagnostics of the semantic analyzer *)

Lemma reports_refl a : reports a a.
Proof.
  exists []. rewrite app_nil_r, orb_false_r. repeat split. constructor.
Qed.

Lemma reports_trans a1 a2 a3 : reports a1 a2 -> reports a2 a3 -> reports a1 a3.
Proof.
  intros (m1 & H1 & E1 & F1) (m2 & H2 & E2 & F2).
  exists (app m1 m2). rewrite H2, H1, E2, E1, app_assoc.
  split; [reflexivity|]. split.
  - destruct m1, m2; simpl; rewrite ?orb_false_r, ?orb_true_r; reflexivity.
  - apply Forall_app; split; assumption.
Qed.

Lemma reports_error message a : reports a (SemanticAnalyzer.error message a).
Proof.
  exists ["Semantic error: " ++ message]. simpl. unfold push_back.
  rewrite orb_true_r. repeat split. constructor; [eauto|constructor].
Qed.

Lemma reports_set_scopes ss a : reports a (SemanticAnalyzer.set_scopes ss a).
Proof.
  exists []. simpl. rewrite app_nil_r, orb_false_r. repeat split. constructor.
Qed.

Lemma reads_refl a : reads a a.
Proof. split; [reflexivity|apply reports_refl]. Qed.

Lemma reads_trans a1 a2 a3 : reads a1 a2 -> reads a2 a3 -> reads a1 a3.
Proof.
  intros [S1 R1] [S2 R2]. split; [congruence|eapply reports_trans; eassumption].
Qed.

Lemma reads_error message a : reads a (SemanticAnalyzer.error message a).
Proof. split; [reflexivity|apply reports_error]. Qed.

Lemma reads_if (b : bool) message a :
  reads a (if b then SemanticAnalyzer.error message a else a).
Proof. destruct b; [apply reads_error|apply reads_refl]. Qed.

Lemma reads_analyzeBinaryExpr_type op lt rt a :
  reads a (snd (SemanticAnalyzer.analyzeBinaryExpr_type op lt rt a)).
Proof.
  unfold SemanticAnalyzer.analyzeBinaryExpr_type.
  repeat match goal with
         | |- context [if ?c then (_, _) else _] => destruct c
         end; simpl; try apply reads_refl.
  all: eapply reads_trans; apply reads_if.
Qed.

Lemma reads_analyzeExpression e :
  forall a, reads a (snd (SemanticAnalyzer.analyzeExpression e a)).
Proof.
  induction e using Expr_ind; intros a; simpl; try apply reads_refl.
  - specialize (IHe1 a).
    destruct (SemanticAnalyzer.analyzeExpression e1 a) as [leftType a1].
    specialize (IHe2 a1).
    destruct (SemanticAnalyzer.analyzeExpression e2 a1) as [rightType a2].
    simpl in *.
    eapply reads_trans; [eassumption|]. eapply reads_trans; [eassumption|].
    eapply reads_trans; [apply reads_if|apply reads_analyzeBinaryExpr_type].
  - specialize (IHe a).
    destruct (SemanticAnalyzer.analyzeExpression e a) as [rightType a1].
    simpl in *.
    repeat match goal with
           | |- context [if ?c then (_, _) else _] => destruct c
           end; simpl; try assumption;
      (eapply reads_trans; [eassumption|apply reads_if]).
  - destruct (_ && _); simpl; [apply reads_error|].
    destruct (SemanticAnalyzer.lookup SemanticAnalyzer.variables n a);
      [apply reads_refl|].
    destruct (SemanticAnalyzer.lookup SemanticAnalyzer.functions n a);
      apply reads_refl.
  - specialize (IHe a).
    destruct (SemanticAnalyzer.analyzeExpression e a) as [valueType a1].
    simpl in *. destruct (negb _); simpl.
    + eapply reads_trans; [eassumption|apply reads_error].
    + eapply reads_trans; [eassumption|apply reads_if].
  - specialize (IHe a).
    destruct (SemanticAnalyzer.analyzeExpression e a) as [calleeType a1].
    simpl in *.
    set (a2 := match e with IdentifierExpr _ => _ | _ => _ end).
    assert (H2 : reads a a2).
    { eapply reads_trans; [eassumption|]. subst a2.
      destruct e; try apply reads_refl. apply reads_if. }
    clearbody a2. clear IHe. revert a2 H2.
    induction H as [|arg rest Harg _ IH]; intros a2 H2; [assumption|].
    apply IH. eapply reads_trans; [eassumption|apply Harg].
  - apply IHe.
  - apply IHe.
Qed.

Lemma update_back_length f ss : length (SemanticAnalyzer.update_back f ss) = length ss.
Proof.
  induction ss as [|sc [|sc' rest] IH]; simpl in *; [reflexivity..|].
  rewrite IH. reflexivity.
Qed.

Lemma update_back_removelast f ss :
  removelast (SemanticAnalyzer.update_back f ss) = removelast ss.
Proof.
  induction ss as [|sc [|sc' rest] IH]; [reflexivity..|].
  change (SemanticAnalyzer.update_back f (sc :: sc' :: rest))
    with (sc :: SemanticAnalyzer.update_back f (sc' :: rest)).
  change (removelast (sc :: sc' :: rest)) with (sc :: removelast (sc' :: rest)).
  rewrite <- IH. simpl. destruct rest; reflexivity.
Qed.

Lemma update_back_snoc f ss sc :
  SemanticAnalyzer.update_back f (app ss [sc]) = app ss [f sc].
Proof.
  induction ss as [|sc0 rest IH]; [reflexivity|].
  simpl. rewrite IH. destruct rest; reflexivity.
Qed.

Lemma declares_refl a : declares a a.
Proof. repeat split. apply reports_refl. Qed.

Lemma declares_trans a1 a2 a3 : declares a1 a2 -> declares a2 a3 -> declares a1 a3.
Proof.
  intros (L1 & S1 & R1) (L2 & S2 & R2).
  split; [congruence|]. split; [congruence|].
  eapply reports_trans; eassumption.
Qed.

Lemma reads_declares a a' : reads a a' -> declares a a'.
Proof. intros [S R]. unfold declares. rewrite S. auto. Qed.

Lemma declares_update_back f a :
  declares a (SemanticAnalyzer.set_scopes
                (SemanticAnalyzer.update_back f (SemanticAnalyzer.scopes a)) a).
Proof.
  split; [apply update_back_length|]. split; [apply update_back_removelast|].
  apply reports_set_scopes.
Qed.

Lemma declares_defineVariable name type a :
  declares a (SemanticAnalyzer.defineVariable name type a).
Proof. apply declares_update_back. Qed.

Lemma declares_defineFunction name type a :
  declares a (SemanticAnalyzer.defineFunction name type a).
Proof. apply declares_update_back. Qed.

Lemma declares_defineStruct name fields a :
  declares a (SemanticAnalyzer.defineStruct name fields a).
Proof. apply declares_update_back. Qed.

Lemma declares_if (b : bool) message a :
  declares a (if b then SemanticAnalyzer.error message a else a).
Proof. apply reads_declares, reads_if. Qed.

Lemma declares_analyzeExpression e a :
  declares a (snd (SemanticAnalyzer.analyzeExpression e a)).
Proof. apply reads_declares, reads_analyzeExpression. Qed.

(** What a scope entered, filled and left again leaves behind. *)
Lemma reads_scoped a a' :
  declares (SemanticAnalyzer.enterScope a) a' ->
  reads a (SemanticAnalyzer.exitScope a').
Proof.
  intros (L & S & R). split.
  - simpl. rewrite S. simpl. unfold push_back. apply removelast_last.
  - eapply reports_trans; [apply reports_set_scopes|].
    eapply reports_trans; [exact R|apply reports_set_scopes].
Qed.

Lemma declares_analyzeVarStatement name type init a :
  declares a (SemanticAnalyzer.analyzeVarStatement name type init a).
Proof.
  unfold SemanticAnalyzer.analyzeVarStatement.
  set (a1 := if SemanticAnalyzer.isVariableDefined name a then _ else _).
  apply declares_trans with a1; [apply declares_if|]. clearbody a1.
  assert (H : declares a1
            (snd (if String.eqb type EmptyString
                  then match init with
                       | Some e => SemanticAnalyzer.analyzeExpression e a1
                       | None => ("any", a1)
                       end
                  else (type, a1)))).
  { destruct (String.eqb type EmptyString); [|apply declares_refl].
    destruct init; [apply declares_analyzeExpression|apply declares_refl]. }
  destruct (if String.eqb type EmptyString then _ else _) as [ty a2].
  simpl in H. eapply declares_trans; [exact H|].
  set (a3 := if negb _ then _ else _).
  apply declares_trans with a3; [apply declares_if|]. clearbody a3.
  eapply declares_trans; [apply declares_defineVariable|].
  destruct init as [e|]; [|apply declares_refl].
  pose proof (declares_analyzeExpression e
                (SemanticAnalyzer.defineVariable name ty a3)) as He.
  destruct (SemanticAnalyzer.analyzeExpression e _) as [initType a5].
  simpl in He. eapply declares_trans; [exact He|apply declares_if].
Qed.

Lemma declares_analyzeConstStatement name type init a :
  declares a (SemanticAnalyzer.analyzeConstStatement name type init a).
Proof.
  unfold SemanticAnalyzer.analyzeConstStatement.
  set (a1 := if SemanticAnalyzer.isVariableDefined name a then _ else _).
  apply declares_trans with a1; [apply declares_if|]. clearbody a1.
  assert (H : declares a1
            (snd (if String.eqb type EmptyString
                  then match init with
                       | Some e => SemanticAnalyzer.analyzeExpression e a1
                       | None => ("any", a1)
                       end
                  else (type, a1)))).
  { destruct (String.eqb type EmptyString); [|apply declares_refl].
    destruct init; [apply declares_analyzeExpression|apply declares_refl]. }
  destruct (if String.eqb type EmptyString then _ else _) as [ty a2].
  simpl in H. eapply declares_trans; [exact H|].
  set (a3 := if negb _ then _ else _).
  apply declares_trans with a3; [apply declares_if|]. clearbody a3.
  eapply declares_trans; [apply declares_defineVariable|].
  destruct init as [e|];
    [|apply reads_declares, reads_error].
  pose proof (declares_analyzeExpression e
                (SemanticAnalyzer.defineVariable name ty a3)) as He.
  destruct (SemanticAnalyzer.analyzeExpression e _) as [initType a5].
  simpl in He. eapply declares_trans; [exact He|apply declares_if].
Qed.

Lemma declares_check_condition what ty a :
  declares a (SemanticAnalyzer.check_condition what ty a).
Proof. apply declares_if. Qed.

Lemma declares_fold_parameters (parameters : list (string * string)) a :
  declares a
    (fold_left (fun a '(pname, ptype) =>
                  SemanticAnalyzer.defineVariable pname
                    (if String.eqb ptype EmptyString then "any" else ptype) a)
               parameters a).
Proof.
  revert a. induction parameters as [|[pname ptype] rest IH]; intros a;
    [apply declares_refl|].
  simpl. eapply declares_trans; [apply declares_defineVariable|apply IH].
Qed.

Lemma declares_statements l :
  Forall (fun s => forall a, declares a (SemanticAnalyzer.analyzeStatement s a)) l ->
  forall a,
    declares a
      ((fix analyzeStatements (l : list Stmt) (a : SemanticAnalyzer.t) :=
          match l with
          | [] => a
          | s :: rest => analyzeStatements rest (SemanticAnalyzer.analyzeStatement s a)
          end) l a).
Proof.
  induction 1 as [|s rest Hs _ IH]; intros a; [apply declares_refl|].
  eapply declares_trans; [apply Hs|apply IH].
Qed.

Lemma declares_analyzeStatement s :
  forall a, declares a (SemanticAnalyzer.analyzeStatement s a).
Proof.
  induction s using Stmt_ind; intros a0; simpl.
  - apply declares_analyzeExpression.
  - apply declares_analyzeExpression.
  - apply declares_analyzeVarStatement.
  - apply declares_analyzeConstStatement.
  - apply reads_declares, reads_scoped, declares_statements, H.
  - pose proof (declares_analyzeExpression c a0) as Hc.
    destruct (SemanticAnalyzer.analyzeExpression c a0) as [ty a1]. simpl in Hc.
    eapply declares_trans; [exact Hc|].
    eapply declares_trans; [apply declares_check_condition|].
    eapply declares_trans; [apply IHs|].
    destruct e; [apply H|apply declares_refl].
  - pose proof (declares_analyzeExpression c a0) as Hc.
    destruct (SemanticAnalyzer.analyzeExpression c a0) as [ty a1]. simpl in Hc.
    eapply declares_trans; [exact Hc|].
    eapply declares_trans; [apply declares_check_condition|apply IHs].
  - set (a1 := match i with
                | Some s0 => SemanticAnalyzer.analyzeStatement s0 a0
                | None => a0
                end).
    set (a2 := match c with Some e => _ | None => a1 end).
    set (a3 := match inc with Some e => _ | None => a2 end).
    apply declares_trans with a3; [|apply IHs].
    apply declares_trans with a2;
      [|subst a3; destruct inc;
        [apply declares_analyzeExpression|apply declares_refl]].
    apply declares_trans with a1;
      [subst a1; destruct i; [apply H|apply declares_refl]|].
    subst a2. clearbody a1. destruct c as [e|]; [|apply declares_refl].
    pose proof (declares_analyzeExpression e a1) as Hc.
    destruct (SemanticAnalyzer.analyzeExpression e a1) as [ty a2]. simpl in Hc.
    eapply declares_trans; [exact Hc|apply declares_check_condition].
  - destruct v; [apply declares_analyzeExpression|apply declares_refl].
  - set (a1 := if SemanticAnalyzer.isFunctionDefined n a0 then _ else _).
    apply declares_trans with a1; [apply declares_if|]. clearbody a1.
    eapply declares_trans; [apply declares_defineFunction|].
    apply reads_declares, reads_scoped.
    eapply declares_trans; [apply declares_fold_parameters|apply IHs].
  - set (a1 := if SemanticAnalyzer.isStructDefined n a0 then _ else _).
    apply declares_trans with a1; [apply declares_if|]. clearbody a1.
    set (a2 := if negb _ && _ then _ else _).
    apply declares_trans with a2; [apply declares_if|]. clearbody a2.
    apply reads_declares, reads_scoped, declares_statements, H.
  - set (a1 := if SemanticAnalyzer.isStructDefined n a0 then _ else _).
    apply declares_trans with a1; [apply declares_if|]. clearbody a1.
    apply declares_defineStruct.
  - eapply declares_trans; [apply IHs|].
    eapply declares_trans; [apply declares_statements, H|].
    destruct f; [apply H0|apply declares_refl].
  - apply reads_declares, reads_scoped.
    eapply declares_trans; [apply declares_defineVariable|apply IHs].
  - apply declares_analyzeExpression.
  - apply declares_analyzeExpression.
Qed.

Lemma declares_analyze statements :
  forall a, declares a (SemanticAnalyzer.analyze statements a).
Proof.
  induction statements as [|s rest IH]; intros a; [apply declares_refl|].
  eapply declares_trans; [apply declares_analyzeStatement|apply IH].
Qed.

(** [analyzeVarStatement] is the redefinition check followed by steps that
    change the innermost scope only. *)
Lemma analyzeVarStatement_steps name type init a :
  declares (if SemanticAnalyzer.isVariableDefined name a
            then SemanticAnalyzer.error
                   ("Variable '" ++ name ++ "' is already defined.") a
            else a)
           (SemanticAnalyzer.analyzeVarStatement name type init a).
Proof.
  unfold SemanticAnalyzer.analyzeVarStatement.
  set (a1 := if SemanticAnalyzer.isVariableDefined name a then _ else _).
  clearbody a1.
  assert (H : declares a1
            (snd (if String.eqb type EmptyString
                  then match init with
                       | Some e => SemanticAnalyzer.analyzeExpression e a1
                       | None => ("any", a1)
                       end
                  else (type, a1)))).
  { destruct (String.eqb type EmptyString); [|apply declares_refl].
    destruct init; [apply declares_analyzeExpression|apply declares_refl]. }
  destruct (if String.eqb type EmptyString then _ else _) as [ty a2].
  simpl in H. eapply declares_trans; [exact H|].
  set (a3 := if negb _ then _ else _).
  apply declares_trans with a3; [apply declares_if|]. clearbody a3.
  eapply declares_trans; [apply declares_defineVariable|].
  destruct init as [e|]; [|apply declares_refl].
  pose proof (declares_analyzeExpression e
                (SemanticAnalyzer.defineVariable name ty a3)) as He.
  destruct (SemanticAnalyzer.analyzeExpression e _) as [initType a5].
  simpl in He. eapply declares_trans; [exact He|apply declares_if].
Qed.

Lemma scopes_snoc (a : SemanticAnalyzer.t) :
  SemanticAnalyzer.scopes a <> [] ->
  exists ss sc, SemanticAnalyzer.scopes a = app ss [sc].
Proof.
  intros H. destruct (exists_last H) as (ss & sc & E). eauto.
Qed.

Lemma lookup_snoc {V : Type} (sel : SemanticAnalyzer.Scope -> gmap string V)
    name ss sc hadError cerr :
  SemanticAnalyzer.lookup sel name (SemanticAnalyzer.mk hadError (app ss [sc]) cerr) =
  match sel sc !! name with
  | Some v => Some v
  | None => SemanticAnalyzer.find_rev sel name (rev ss)
  end.
Proof.
  unfold SemanticAnalyzer.lookup. simpl. rewrite rev_app_distr. reflexivity.
Qed.

Lemma isVariableDefined_enterScope name a :
  SemanticAnalyzer.isVariableDefined name (SemanticAnalyzer.enterScope a) =
  SemanticAnalyzer.isVariableDefined name a.
Proof.
  unfold SemanticAnalyzer.isVariableDefined, SemanticAnalyzer.enterScope,
    SemanticAnalyzer.set_scopes, push_back.
  rewrite lookup_snoc. simpl. rewrite lookup_empty. reflexivity.
Qed.

(** X1: analyzing an expression leaves the scopes as they are: it declares
    nothing, whatever the expression, also an assignment to a name that is
    not declared. *)
Theorem analyzeExpression_keeps_scopes (expr : Expr) (a : SemanticAnalyzer.t) :
  SemanticAnalyzer.scopes (snd (SemanticAnalyzer.analyzeExpression expr a)) =
  SemanticAnalyzer.scopes a.
Proof. apply reads_analyzeExpression. Qed.

(** X2: analyzing a statement leaves as many scopes as there were, and all
    scopes but the innermost unchanged: every scope entered is left again
    and declarations go to the innermost scope. *)
Theorem analyzeStatement_keeps_enclosing_scopes (stmt : Stmt)
    (a : SemanticAnalyzer.t) :
  length (SemanticAnalyzer.scopes (SemanticAnalyzer.analyzeStatement stmt a)) =
    length (SemanticAnalyzer.scopes a) /\
  removelast (SemanticAnalyzer.scopes (SemanticAnalyzer.analyzeStatement stmt a)) =
    removelast (SemanticAnalyzer.scopes a).
Proof.
  destruct (declares_analyzeStatement stmt a) as (L & S & _). auto.
Qed.

(** X3: a block, a catch clause and a class leave the scopes exactly as
    they were, so what is declared inside is gone behind them; a function
    declaration leaves the scopes with the function defined and without its
    parameters and locals. *)
Theorem scoped_statements_are_local (a : SemanticAnalyzer.t) :
  (forall statements,
     SemanticAnalyzer.scopes
       (SemanticAnalyzer.analyzeStatement (BlockStmt statements) a) =
     SemanticAnalyzer.scopes a) /\
  (forall name type body,
     SemanticAnalyzer.scopes
       (SemanticAnalyzer.analyzeStatement (CatchStmt name type body) a) =
     SemanticAnalyzer.scopes a) /\
  (forall name superclass methods,
     SemanticAnalyzer.scopes
       (SemanticAnalyzer.analyzeStatement (ClassStmt name superclass methods) a) =
     SemanticAnalyzer.scopes a) /\
  (forall name parameters rtype body isAsync isCoroutine,
     SemanticAnalyzer.scopes
       (SemanticAnalyzer.analyzeStatement
          (FunctionStmt name parameters rtype body isAsync isCoroutine) a) =
     SemanticAnalyzer.scopes (SemanticAnalyzer.defineFunction name rtype a)).
Proof.
  repeat split; intros; simpl.
  - apply reads_scoped, declares_statements, Forall_forall.
    intros s _. apply declares_analyzeStatement.
  - apply reads_scoped.
    eapply declares_trans;
      [apply declares_defineVariable|apply declares_analyzeStatement].
  - set (a1 := if SemanticAnalyzer.isStructDefined name a then _ else _).
    set (a2 := if negb _ && _ then _ else _).
    transitivity (SemanticAnalyzer.scopes a2).
    + apply reads_scoped, declares_statements, Forall_forall.
      intros s _. apply declares_analyzeStatement.
    + subst a2 a1.
      destruct (negb _ && _), (SemanticAnalyzer.isStructDefined name a);
        reflexivity.
  - set (a1 := if SemanticAnalyzer.isFunctionDefined name a then _ else _).
    transitivity
      (SemanticAnalyzer.scopes (SemanticAnalyzer.defineFunction name rtype a1)).
    + apply reads_scoped.
      eapply declares_trans;
        [apply declares_fold_parameters|apply declares_analyzeStatement].
    + subst a1. destruct (SemanticAnalyzer.isFunctionDefined name a); reflexivity.
Qed.

(** X4: [analyze] only appends to the diagnostics, each appended line
    starts with [Semantic error: ], and afterwards the error flag is set
    exactly if it was set before or a line was appended. *)
Theorem analyze_reports (statements : list Stmt) (a : SemanticAnalyzer.t) :
  exists msgs,
    SemanticAnalyzer.cerr (SemanticAnalyzer.analyze statements a) =
      app (SemanticAnalyzer.cerr a) msgs /\
    SemanticAnalyzer.hadError (SemanticAnalyzer.analyze statements a) =
      (SemanticAnalyzer.hadError a ||
       match msgs with [] => false | _ => true end) /\
    Forall (fun m => exists message, m = "Semantic error: " ++ message) msgs.
Proof. apply declares_analyze. Qed.

(** X5: in an analyzer with a scope, a variable that was just defined is
    found with the type it was defined with, the other variables and the
    functions are found as before. *)
Theorem defineVariable_lookup (name type : string) (a : SemanticAnalyzer.t) :
  SemanticAnalyzer.scopes a <> [] ->
  SemanticAnalyzer.lookup SemanticAnalyzer.variables name
    (SemanticAnalyzer.defineVariable name type a) = Some type /\
  SemanticAnalyzer.isVariableDefined name
    (SemanticAnalyzer.defineVariable name type a) = true /\
  (forall other, other <> name ->
     SemanticAnalyzer.lookup SemanticAnalyzer.variables other
       (SemanticAnalyzer.defineVariable name type a) =
     SemanticAnalyzer.lookup SemanticAnalyzer.variables other a) /\
  (forall other,
     SemanticAnalyzer.lookup SemanticAnalyzer.functions other
       (SemanticAnalyzer.defineVariable name type a) =
     SemanticAnalyzer.lookup SemanticAnalyzer.functions other a).
Proof.
  intros H. destruct (scopes_snoc a H) as (ss & sc & E).
  destruct a as [e scopes cerr]. simpl in E. subst scopes.
  unfold SemanticAnalyzer.isVariableDefined, SemanticAnalyzer.defineVariable,
    SemanticAnalyzer.set_scopes.
  simpl. rewrite update_back_snoc, !lookup_snoc. simpl.
  rewrite lookup_insert_eq. repeat split.
  - intros other Hne. rewrite !lookup_snoc. simpl.
    rewrite lookup_insert_ne by congruence. reflexivity.
  - intros other. rewrite !lookup_snoc. reflexivity.
Qed.

Lemma defineVariable_lookup_witness :
  SemanticAnalyzer.lookup SemanticAnalyzer.variables "x"
    (SemanticAnalyzer.defineVariable "x" "int" SemanticAnalyzer.new) = Some "int".
Proof.
  refine (proj1 (defineVariable_lookup "x" "int" SemanticAnalyzer.new _)).
  vm_compute. discriminate.
Defined.

(** X6: declaring a variable whose name is visible in any scope is an
    error with the diagnostic [Variable 'name' is already defined.], also
    when the declaration stands in a nested block: a name cannot be
    shadowed. *)
Theorem redeclaration_is_an_error (name type : string) (init : option Expr)
    (a : SemanticAnalyzer.t) :
  SemanticAnalyzer.isVariableDefined name a = true ->
  let message := "Semantic error: Variable '" ++ name ++ "' is already defined." in
  (SemanticAnalyzer.hadError
     (SemanticAnalyzer.analyzeStatement (VarStmt name type init) a) = true /\
   In message
      (SemanticAnalyzer.cerr
         (SemanticAnalyzer.analyzeStatement (VarStmt name type init) a))) /\
  (SemanticAnalyzer.hadError
     (SemanticAnalyzer.analyzeStatement (BlockStmt [VarStmt name type init]) a)
   = true /\
   In message
      (SemanticAnalyzer.cerr
         (SemanticAnalyzer.analyzeStatement (BlockStmt [VarStmt name type init]) a))).
Proof.
  intros Hdef message.
  assert (Hvar : forall a0, SemanticAnalyzer.isVariableDefined name a0 = true ->
            SemanticAnalyzer.hadError
              (SemanticAnalyzer.analyzeVarStatement name type init a0) = true /\
            In message
               (SemanticAnalyzer.cerr
                  (SemanticAnalyzer.analyzeVarStatement name type init a0))).
  { intros a0 H0. pose proof (analyzeVarStatement_steps name type init a0) as Hs.
    rewrite H0 in Hs. destruct Hs as (_ & _ & msgs & Hc & He & _).
    rewrite He, Hc. simpl. split; [reflexivity|].
    apply in_or_app. left. unfold push_back. apply in_or_app. right.
    left. reflexivity. }
  split; [apply Hvar, Hdef|].
  simpl. apply Hvar. rewrite isVariableDefined_enterScope. exact Hdef.
Qed.

Lemma redeclaration_is_an_error_witness :
  SemanticAnalyzer.hadError
    (SemanticAnalyzer.analyzeStatement
       (BlockStmt [VarStmt "print" EmptyString None]) SemanticAnalyzer.new) = true.
Proof.
  refine (proj1 (proj2 (redeclaration_is_an_error "print" EmptyString None
                          SemanticAnalyzer.new _))).
  vm_compute. reflexivity.
Defined.

(** ** The token stream *)

Lemma skipWhitespace_at_end l :
  Lexer.isAtEnd l = true -> Lexer.skipWhitespace l = l.
Proof.
  intros Hend. unfold Lexer.skipWhitespace. simpl. rewrite Hend. reflexivity.
Qed.

Lemma tokenize_reaches_end fuel :
  forall l,
    Lexer.ungotToken l = None -> Lexer.remaining l < fuel ->
    exists front eof,
      Lexer.tokenize fuel l = app front [eof] /\
      Token.type eof = END_OF_FILE /\
      Forall (fun tk => Token.type tk <> END_OF_FILE) front.
Proof.
  induction fuel as [|fuel IH]; intros l Hslot Hfuel; [lia|].
  simpl. pose proof (getNextToken_progress l Hslot) as (Hslot' & Hstep).
  destruct (Lexer.getNextToken l) as [tk l']. simpl in Hslot', Hstep.
  destruct (TokenType_eqb (Token.type tk) END_OF_FILE) eqn:Heof.
  - apply TokenType_eqb_eq in Heof.
    exists [], tk. repeat split; [exact Heof|constructor].
  - apply TokenType_eqb_neq in Heof.
    destruct Hstep as [Hstep|Hstep]; [contradiction|].
    destruct (IH l' Hslot') as (front & eof & Htokens & Htype & Hfront);
      [lia|].
    exists (tk :: front), eof. rewrite Htokens.
    repeat split; [exact Htype|constructor; assumption].
Qed.

(** X9: for every source text, calling [getNextToken] until END_OF_FILE
    comes back ends within one call more than the text has characters: the
    tokens end with the one END_OF_FILE token. *)
Theorem tokenize_ends_with_end_of_file (src : string) :
  exists front eof,
    Lexer.tokenize (S (String.length src)) (Lexer.new src) = app front [eof] /\
    Token.type eof = END_OF_FILE /\
    Forall (fun tk => Token.type tk <> END_OF_FILE) front.
Proof.
  apply tokenize_reaches_end; [reflexivity|].
  unfold Lexer.remaining. simpl. lia.
Qed.

(** X10: at the end of the input, with no token pushed back,
    [getNextToken] returns an END_OF_FILE token for the current position and
    leaves the lexer as it is, however often it is called. *)
Theorem getNextToken_at_end (l : Lexer.t) :
  Lexer.ungotToken l = None -> Lexer.isAtEnd l = true ->
  Lexer.getNextToken l = (Lexer.makeToken END_OF_FILE EmptyString l, l) /\
  forall n, Lexer.tokens n l =
            repeat (Lexer.makeToken END_OF_FILE EmptyString l) n.
Proof.
  intros Hslot Hend.
  assert (Hnext : Lexer.getNextToken l =
                  (Lexer.makeToken END_OF_FILE EmptyString l, l)).
  { unfold Lexer.getNextToken.
    rewrite Hslot, (skipWhitespace_at_end l Hend), Hend. reflexivity. }
  split; [exact Hnext|].
  induction n as [|n IH]; [reflexivity|].
  simpl. rewrite Hnext, IH. reflexivity.
Qed.

Lemma getNextToken_at_end_witness :
  Lexer.getNextToken (Lexer.new EmptyString) =
  (Token.mk END_OF_FILE EmptyString 1 1, Lexer.new EmptyString).
Proof.
  exact (proj1 (getNextToken_at_end (Lexer.new EmptyString) eq_refl eq_refl)).
Defined.

(** X8: with no token pushed back, a call of [getNextToken] that returns
    anything but END_OF_FILE, an ERROR token included, moves the position
    forward in the same source text. *)
Theorem getNextToken_consumes_input (l : Lexer.t) :
  Lexer.ungotToken l = None ->
  Token.type (fst (Lexer.getNextToken l)) <> END_OF_FILE ->
  Lexer.source (snd (Lexer.getNextToken l)) = Lexer.source l /\
  Lexer.position l < Lexer.position (snd (Lexer.getNextToken l)) /\
  Lexer.remaining (snd (Lexer.getNextToken l)) < Lexer.remaining l /\
  Lexer.ungotToken (snd (Lexer.getNextToken l)) = None.
Proof.
  intros Hslot Htype.
  pose proof (getNextToken_progress l Hslot) as (Hnone & [Heof|Hlt]);
    [contradiction|].
  revert Htype Hlt Hnone. unfold Lexer.getNextToken. rewrite Hslot.
  pose proof (later_skipWhitespace l) as (Hs & Hp & Hu).
  destruct (Lexer.isAtEnd (Lexer.skipWhitespace l)); simpl;
    [intros Htype; contradiction|].
  pose proof (scanToken_progress (Lexer.skipWhitespace l)) as (Hs' & Hp' & Hu').
  intros _ Hlt Hnone. repeat split; [congruence|lia|exact Hlt|exact Hnone].
Qed.

Lemma getNextToken_consumes_input_witness :
  Lexer.position (Lexer.new "a") <
  Lexer.position (snd (Lexer.getNextToken (Lexer.new "a"))).
Proof.
  refine (proj1 (proj2 (getNextToken_consumes_input (Lexer.new "a") eq_refl _))).
  vm_compute. discriminate.
Defined.

(** X7: with no token pushed back, [getNextToken] never returns a DIVIDE
    or a DIVIDE_ASSIGN token, whatever the source text. *)
Theorem lexer_never_scans_division (l : Lexer.t) :
  Lexer.ungotToken l = None ->
  Token.type (fst (Lexer.getNextToken l)) <> DIVIDE /\
  Token.type (fst (Lexer.getNextToken l)) <> DIVIDE_ASSIGN.
Proof. apply getNextToken_no_division. Qed.

Lemma lexer_never_scans_division_witness :
  Token.type (fst (Lexer.getNextToken (Lexer.new "8 / 4 /= 2"))) <> DIVIDE.
Proof.
  exact (proj1 (lexer_never_scans_division (Lexer.new "8 / 4 /= 2") eq_refl)).
Defined.

(** ** Rewriting of operands in the optimizer *)

Lemma replace_name_same name x : Optimizer.replace_name name name x = x.
Proof.
  unfold Optimizer.replace_name. destruct (String.eqb x name) eqn:E; [|reflexivity].
  apply String.eqb_eq in E. congruence.
Qed.

Lemma map_replace_name_same name l : map (Optimizer.replace_name name name) l = l.
Proof. induction l as [|x l IH]; simpl; [|rewrite replace_name_same, IH]; reflexivity. Qed.

(** X12: [replaceInstructionUse] keeps the name of the block and the
    names and the order of its instructions, and replacing a name by itself
    changes nothing. *)
Theorem replaceInstructionUse_keeps_shape (oldName newName : string)
    (block : BasicBlock) :
  block_name (Optimizer.replaceInstructionUse oldName newName block) =
    block_name block /\
  map Instruction_name
      (instructions (Optimizer.replaceInstructionUse oldName newName block)) =
    map Instruction_name (instructions block) /\
  Optimizer.replaceInstructionUse oldName oldName block = block.
Proof.
  split; [reflexivity|]. split.
  - unfold Optimizer.replaceInstructionUse. simpl. rewrite List.map_map.
    apply List.map_ext. intros []; reflexivity.
  - destruct block as [name instrs]. unfold Optimizer.replaceInstructionUse.
    simpl. f_equal. induction instrs as [|i instrs IH]; [reflexivity|].
    simpl. rewrite IH. f_equal.
    destruct i; rewrite ?replace_name_same, ?map_replace_name_same; reflexivity.
Qed.

(** ** Error recovery of the parser *)

(** [advance] uses up a round of the lexer unless it reaches the end of
    the input. *)
Lemma advance_loop_rounds fuel :
  forall p,
    rounds (Parser.lexer p) < fuel ->
    Token.type (Parser.currentToken (Parser.advance_loop fuel p)) = END_OF_FILE \/
    rounds (Parser.lexer (Parser.advance_loop fuel p)) < rounds (Parser.lexer p).
Proof.
  induction fuel as [|fuel IH]; intros p Hfuel; [lia|].
  simpl. destruct (Lexer.getNextToken (Parser.lexer p)) as [tk lx] eqn:Hget.
  assert (Hstep : Token.type tk = END_OF_FILE \/ rounds lx < rounds (Parser.lexer p)).
  { unfold rounds in *.
    destruct (Lexer.ungotToken (Parser.lexer p)) as [u|] eqn:Hslot.
    - unfold Lexer.getNextToken in Hget. rewrite Hslot in Hget.
      injection Hget as <- <-. right. simpl. unfold Lexer.remaining. simpl. lia.
    - pose proof (getNextToken_progress _ Hslot) as (Hnone & Hprog).
      rewrite Hget in Hnone, Hprog. simpl in Hnone, Hprog. rewrite Hnone.
      destruct Hprog as [Heof|Hlt]; [left; exact Heof|right; lia]. }
  destruct (TokenType_eqb (Token.type tk) ERROR) eqn:Herr; simpl.
  - destruct Hstep as [Heof|Hlt].
    { rewrite Heof in Herr. discriminate Herr. }
    destruct (IH (Parser.error (Token.lexeme tk)
                    (Parser.set_currentToken tk (Parser.set_lexer lx p))))
      as [Heof|Hlt']; [simpl; lia|left; exact Heof|right; simpl in Hlt'; lia].
  - exact Hstep.
Qed.

Lemma advance_rounds p :
  Token.type (Parser.currentToken (Parser.advance p)) = END_OF_FILE \/
  rounds (Parser.lexer (Parser.advance p)) < rounds (Parser.lexer p).
Proof.
  unfold Parser.advance.
  destruct (advance_loop_rounds (Lexer.remaining (Parser.lexer p) + 2)
              (Parser.set_previousToken (Parser.currentToken p) p)) as [H|H];
    [|left; exact H|right; exact H].
  simpl. unfold rounds. destruct (Lexer.ungotToken _); lia.
Qed.

Lemma synchronize_loop_stops fuel :
  forall p,
    Token.type (Parser.currentToken p) = END_OF_FILE \/
    rounds (Parser.lexer p) < fuel ->
    synchronized (Parser.synchronize_loop fuel p).
Proof.
  induction fuel as [|fuel IH]; intros p Hp.
  - destruct Hp as [Heof|Hlt]; [|lia]. left. exact Heof.
  - simpl.
    destruct (TokenType_eqb (Token.type (Parser.currentToken p)) END_OF_FILE)
      eqn:Heof; simpl.
    { left. apply TokenType_eqb_eq, Heof. }
    destruct (TokenType_eqb (Token.type (Parser.previousToken p)) SEMICOLON)
      eqn:Hsemi.
    { right. left. apply TokenType_eqb_eq, Hsemi. }
    destruct (Parser.starts_statement (Token.type (Parser.currentToken p)))
      eqn:Hstart.
    { right. right. exact Hstart. }
    apply IH. apply TokenType_eqb_neq in Heof.
    destruct Hp as [Hp|Hp]; [contradiction|].
    destruct (advance_rounds p) as [H|H]; [left; exact H|right; lia].
Qed.

(** X11: after [synchronize] the parser is at a statement boundary: the
    current token is END_OF_FILE, or the previous token is a semicolon, or
    the current token is one of the keywords that start a statement. *)
Theorem synchronize_stops_at_boundary (p : Parser.t) :
  Token.type (Parser.currentToken (Parser.synchronize p)) = END_OF_FILE \/
  Token.type (Parser.previousToken (Parser.synchronize p)) = SEMICOLON \/
  Parser.starts_statement
    (Token.type (Parser.currentToken (Parser.synchronize p))) = true.
Proof.
  unfold Parser.synchronize. apply synchronize_loop_stops. right.
  unfold rounds. destruct (Lexer.ungotToken _); lia.
Qed.
